(** * text_to_speech.py: the speech-request queue and its worker

    A shallow embedding of the [TextToSpeech] class of
    [text_to_speech.py]: the facade ([__init__], [speak],
    [speak_blocking], [set_property], [get_property], [stop]) and the
    background thread [_speech_worker] with its nested [init_engine].

    The pyttsx3 engine is an external collaborator.  It is modelled as
    an arbitrary [Engine]: a record of functions that decide, from the
    history of calls made so far, what each call returns or whether it
    raises.  Every call is recorded in a chronological trace, which is
    what a mock engine would capture.

    The two threads (the caller and the worker) are interleaved by a
    schedule, a list of ticks; [run] executes a schedule. *)

From Stdlib Require Import List Ascii String ZArith NArith QArith Bool Arith Lia.
Import ListNotations.
Close Scope Q_scope.
Local Open Scope list_scope.

(** ** Python strings and [str.strip] *)

(** A Python [str] is a sequence of Unicode code points.  Property
    names and voice identifiers, which the code never inspects, are
    kept as [string]. *)
Definition pystr := list N.

(** A string literal of the source, as code points. *)
Definition lit (s : string) : pystr :=
  map N_of_ascii (list_ascii_of_string s).

(** The characters [str.strip()] removes: those for which
    [str.isspace] holds. *)
Definition is_space (c : N) : bool :=
  ((0x09 <=? c) && (c <=? 0x0D) ||
   (0x1C <=? c) && (c <=? 0x20) ||
   (c =? 0x85) || (c =? 0xA0) || (c =? 0x1680) ||
   (0x2000 <=? c) && (c <=? 0x200A) ||
   (c =? 0x2028) || (c =? 0x2029) || (c =? 0x202F) ||
   (c =? 0x205F) || (c =? 0x3000))%N.

Fixpoint lstrip (s : pystr) : pystr :=
  match s with
  | [] => []
  | c :: s' => if is_space c then lstrip s' else s
  end.

Definition rstrip (s : pystr) : pystr := rev (lstrip (rev s)).

Definition strip (s : pystr) : pystr := rstrip (lstrip s).

(** Truth value of a [str]: non-empty. *)
Definition truthy (s : pystr) : bool :=
  match s with [] => false | _ :: _ => true end.

(** [text and text.strip()], as a condition. *)
Definition speakable (text : pystr) : bool :=
  truthy text && truthy (strip text).

(** ** The speech-engine capability *)

Definition Handle := nat.

Record Voice := { voice_id : string; voice_name : string }.

Inductive value :=
| VInt (z : Z)
| VFloat (q : Q)
| VStr (s : string)
| VVoices (vs : list Voice).

Inductive exn := EngineError | RuntimeError | AttributeError | IndexError.

Inductive result (A : Type) :=
| Ok (a : A)
| Raise (e : exn).
Arguments Ok {A} a.
Arguments Raise {A} e.

Definition is_ok {A} (r : result A) : bool :=
  match r with Ok _ => true | Raise _ => false end.

Inductive Thread := Caller | Worker.

Inductive Call :=
| Init
| SetProperty (h : Handle) (name : string) (v : value)
| GetProperty (h : Handle) (name : string)
| Say (h : Handle) (text : pystr)
| RunAndWait (h : Handle)
| EndLoop (h : Handle).

Record Event := { who : Thread; call : Call; succeeded : bool }.

Definition History := list Event.

(** What the engine answers to each call, given everything that was
    called before.  [pyttsx3.init()] may return [None]. *)
Record Engine := {
  eng_init : History -> result (option Handle);
  eng_setProperty : History -> Handle -> string -> value -> result unit;
  eng_getVoices : History -> Handle -> result (list Voice);
  eng_getProperty : History -> Handle -> string -> result value;
  eng_say : History -> Handle -> pystr -> result unit;
  eng_runAndWait : History -> Handle -> result unit;
  eng_endLoop : History -> Handle -> result unit
}.

(** ** Logging *)

Inductive Level := DEBUG | INFO | WARNING | ERROR.

Inductive Msg :=
| InitializingEngine
| SetSpeechRate (rate : Z)
| AvailableVoices (n : nat)
| VoiceListed (i : nat) (name : string)
| UsingVoice (name : string)
| VoiceIndexNotAvailable (voice_index : Z)
| InitializedThreadStarted
| FailedToInitialize
| WorkerStarted
| EngineReinitialized
| FailedToInitializeInWorker
| ReceivedShutdownSignal
| SpeakingText (text : pystr)
| FinishedSpeaking (text : pystr)
| ReinitializingForNext
| ReinitFailedContinuing
| ErrorDuringSynthesis
| ReceivedEmptyText
| UnexpectedWorkerError
| WorkerExiting
| SpeakCalledWithEmptyText
| QueueingText (text : pystr)
| QueueingTextWillWait (text : pystr)
| SetPropertyTo (name : string) (v : value)
| ErrorSettingProperty (name : string)
| ErrorGettingProperty (name : string)
| StoppingEngine
| StoppedSuccessfully
| ErrorStopping.

Definition LogRecord := (Level * Msg)%type.

(** ** The world both threads act on: engine-call trace and log *)

Record World := { trace : History; log : list LogRecord }.

Definition empty_world : World := {| trace := []; log := [] |}.

Definition record_event (e : Event) (w : World) : World :=
  {| trace := trace w ++ [e]; log := log w |}.

Definition record_log (r : LogRecord) (w : World) : World :=
  {| trace := trace w; log := log w ++ [r] |}.

(** ** A state-and-exception monad for the Python code *)

Definition M (S A : Type) := S -> result A * S.

Definition ret {S A} (a : A) : M S A := fun s => (Ok a, s).

Definition bind {S A B} (c : M S A) (k : A -> M S B) : M S B :=
  fun s => match c s with
           | (Ok a, s') => k a s'
           | (Raise e, s') => (Raise e, s')
           end.

Definition raise {S A} (e : exn) : M S A := fun s => (Raise e, s).

(** [try: c  except Exception as e: h e] *)
Definition try_except {S A} (c : M S A) (h : exn -> M S A) : M S A :=
  fun s => match c s with
           | (Ok a, s') => (Ok a, s')
           | (Raise e, s') => h e s'
           end.

Declare Scope py_scope.
Delimit Scope py_scope with py.
Notation "x <- c ;; k" := (bind c (fun x => k))
  (at level 61, c at next level, right associativity) : py_scope.
Notation "c ;; k" := (bind c (fun _ => k))
  (at level 61, right associativity) : py_scope.
Local Open Scope py_scope.

Class HasWorld (S : Type) := {
  the_world : S -> World;
  with_world : World -> S -> S
}.

#[export] Instance HasWorld_World : HasWorld World :=
  {| the_world := fun w => w; with_world := fun w _ => w |}.

Section EngineCalls.
Context {S : Type} `{HasWorld S}.
Variable E : Engine.
Variable t : Thread.

Definition logger (lvl : Level) (m : Msg) : M S unit :=
  fun s => (Ok tt, with_world (record_log (lvl, m) (the_world s)) s).

(** One call to the engine: the engine answers from the history, and
    the call is appended to the trace. *)
Definition engine_call {A} (c : Call) (answer : History -> result A) : M S A :=
  fun s =>
    let w := the_world s in
    let r := answer (trace w) in
    (r, with_world
          (record_event {| who := t; call := c; succeeded := is_ok r |} w) s).

Definition pyttsx3_init : M S (option Handle) :=
  engine_call Init (eng_init E).

(** A method call on [None] raises [AttributeError] before anything
    reaches the engine. *)
Definition on_engine {A} (e : option Handle) (f : Handle -> M S A) : M S A :=
  match e with
  | Some h => f h
  | None => raise AttributeError
  end.

Definition setProperty (name : string) (v : value) (h : Handle) : M S unit :=
  engine_call (SetProperty h name v) (fun hist => eng_setProperty E hist h name v).

Definition getVoices (h : Handle) : M S (list Voice) :=
  engine_call (GetProperty h "voices") (fun hist => eng_getVoices E hist h).

Definition getProperty (name : string) (h : Handle) : M S value :=
  engine_call (GetProperty h name) (fun hist => eng_getProperty E hist h name).

Definition say (text : pystr) (h : Handle) : M S unit :=
  engine_call (Say h text) (fun hist => eng_say E hist h text).

Definition runAndWait (h : Handle) : M S unit :=
  engine_call (RunAndWait h) (fun hist => eng_runAndWait E hist h).

Definition endLoop (h : Handle) : M S unit :=
  engine_call (EndLoop h) (fun hist => eng_endLoop E hist h).
End EngineCalls.

(** ** The [TextToSpeech] object and its two threads *)

(** Where the worker thread is in [_speech_worker].
    - [Starting]: the thread has been started; [init_engine()] on
      startup has not run yet.
    - [Idle]: at the head of the loop, about to test [self.is_running].
    - [Polling]: inside [self.speech_queue.get(timeout=1.0)].
    - [Speaking text]: [text] was dequeued and found speakable; about
      to call [worker_engine.say(text)].
    - [Playing text]: [say] returned; inside [runAndWait()], which
      blocks until playback ends.  The call is recorded in the trace
      when it returns.
    - [Reinitializing after_error]: about to call [init_engine()],
      on the normal path or in the exception handler.
    - [Stopping]: the loop was left; cleanup is about to run.
    - [Stopped]: the thread function has returned.
    - [Crashed]: an exception left the thread function. *)
Inductive WorkerState :=
| Starting
| Idle
| Polling
| Speaking (text : pystr)
| Playing (text : pystr)
| Reinitializing (after_error : bool)
| Stopping
| Stopped
| Crashed.

(** Where the caller is: between facade calls, or inside [stop()]
    after [self.is_running = False], or after the sentinel was put and
    before the join. *)
Inductive CallerState := Ready | StopFlagSet | StopSignalled.

Record Sys := {
  world : World;
  engine : Handle;                        (* self.engine *)
  speech_queue : list (option pystr);     (* None is the sentinel *)
  is_running : bool;
  speech_thread : WorkerState;
  worker_engine : option Handle;          (* local of _speech_worker *)
  caller : CallerState;
  stops_returned : nat;                   (* calls of stop() that returned *)
  escaped : nat                           (* exceptions that reached the caller *)
}.

Definition set_world (w : World) (s : Sys) : Sys :=
  {| world := w; engine := engine s; speech_queue := speech_queue s;
     is_running := is_running s; speech_thread := speech_thread s;
     worker_engine := worker_engine s; caller := caller s;
     stops_returned := stops_returned s; escaped := escaped s |}.

Definition set_queue (q : list (option pystr)) (s : Sys) : Sys :=
  {| world := world s; engine := engine s; speech_queue := q;
     is_running := is_running s; speech_thread := speech_thread s;
     worker_engine := worker_engine s; caller := caller s;
     stops_returned := stops_returned s; escaped := escaped s |}.

Definition set_running (b : bool) (s : Sys) : Sys :=
  {| world := world s; engine := engine s; speech_queue := speech_queue s;
     is_running := b; speech_thread := speech_thread s;
     worker_engine := worker_engine s; caller := caller s;
     stops_returned := stops_returned s; escaped := escaped s |}.

Definition set_thread (t : WorkerState) (s : Sys) : Sys :=
  {| world := world s; engine := engine s; speech_queue := speech_queue s;
     is_running := is_running s; speech_thread := t;
     worker_engine := worker_engine s; caller := caller s;
     stops_returned := stops_returned s; escaped := escaped s |}.

Definition set_worker_engine (e : option Handle) (s : Sys) : Sys :=
  {| world := world s; engine := engine s; speech_queue := speech_queue s;
     is_running := is_running s; speech_thread := speech_thread s;
     worker_engine := e; caller := caller s;
     stops_returned := stops_returned s; escaped := escaped s |}.

Definition set_caller (c : CallerState) (s : Sys) : Sys :=
  {| world := world s; engine := engine s; speech_queue := speech_queue s;
     is_running := is_running s; speech_thread := speech_thread s;
     worker_engine := worker_engine s; caller := c;
     stops_returned := stops_returned s; escaped := escaped s |}.

Definition stop_returned (s : Sys) : Sys :=
  {| world := world s; engine := engine s; speech_queue := speech_queue s;
     is_running := is_running s; speech_thread := speech_thread s;
     worker_engine := worker_engine s; caller := Ready;
     stops_returned := S (stops_returned s); escaped := escaped s |}.

Definition exception_escaped (s : Sys) : Sys :=
  {| world := world s; engine := engine s; speech_queue := speech_queue s;
     is_running := is_running s; speech_thread := speech_thread s;
     worker_engine := worker_engine s; caller := caller s;
     stops_returned := stops_returned s; escaped := S (escaped s) |}.

#[export] Instance HasWorld_Sys : HasWorld Sys :=
  {| the_world := world; with_world := set_world |}.

Definition modify (f : Sys -> Sys) : M Sys unit := fun s => (Ok tt, f s).

(** [self.speech_queue.put(item)]: the queue is unbounded, so [put]
    neither blocks nor raises. *)
Definition put (item : option pystr) : M Sys unit :=
  modify (fun s => set_queue (speech_queue s ++ [item]) s).

Definition goto (t : WorkerState) : M Sys unit := modify (set_thread t).

(** Python's [seq[i]] for an [int] index: negative indices count from
    the end; out of range raises [IndexError] (here [None]). *)
Definition py_index {A} (l : list A) (i : Z) : option A :=
  if (0 <=? i)%Z then nth_error l (Z.to_nat i)
  else if (- Z.of_nat (List.length l) <=? i)%Z
       then nth_error l (Z.to_nat (Z.of_nat (List.length l) + i))
       else None.

Section Program.
Variable E : Engine.

(** *** [_speech_worker] *)

(** The nested helper [init_engine()].  It assigns the nonlocal
    [worker_engine] and returns whether (re)initialization worked. *)
Definition init_engine : M Sys bool :=
  try_except
    (fun s =>
       ((match worker_engine s with
         | Some h =>
             try_except (endLoop E Worker h) (fun _ => ret tt) ;;
             modify (set_worker_engine None)
         | None => ret tt
         end) ;;
        e <- pyttsx3_init E Worker ;;
        modify (set_worker_engine e) ;;
        on_engine e (setProperty E Worker "rate" (VInt 100)) ;;
        on_engine e (setProperty E Worker "volume" (VFloat 1)) ;;
        voices <- on_engine e (getVoices E Worker) ;;
        (match voices with
         | v :: _ => on_engine e (setProperty E Worker "voice" (VStr (voice_id v)))
         | [] => ret tt
         end) ;;
        logger DEBUG EngineReinitialized ;;
        ret true) s)
    (fun _ =>
       logger ERROR FailedToInitializeInWorker ;;
       ret false).

(** What the thread does next, by cases on where it is. *)
Definition worker_code (s : Sys) : M Sys unit :=
  match speech_thread s with
  | Starting =>
      logger INFO WorkerStarted ;;
      ok <- init_engine ;;
      if ok : bool then goto Idle else goto Stopped
  | Idle =>
      if is_running s then goto Polling else goto Stopping
  | Polling =>
      match speech_queue s with
      | [] => goto Idle                              (* queue.Empty: continue *)
      | None :: q =>
          modify (set_queue q) ;;
          logger INFO ReceivedShutdownSignal ;;
          goto Stopping                              (* break *)
      | Some text :: q =>
          modify (set_queue q) ;;
          if speakable text
          then logger INFO (SpeakingText text) ;; goto (Speaking text)
          else logger DEBUG ReceivedEmptyText ;; goto Idle
      end
  | Speaking text =>
      try_except
        (on_engine (worker_engine s) (say E Worker text) ;;
         goto (Playing text))
        (fun _ =>
           logger ERROR ErrorDuringSynthesis ;;
           goto (Reinitializing true))
  | Playing text =>
      try_except
        (on_engine (worker_engine s) (runAndWait E Worker) ;;
         logger INFO (FinishedSpeaking text) ;;
         logger DEBUG ReinitializingForNext ;;
         goto (Reinitializing false))
        (fun _ =>
           logger ERROR ErrorDuringSynthesis ;;
           goto (Reinitializing true))
  | Reinitializing false =>
      try_except
        (ok <- init_engine ;;
         (if ok : bool then ret tt else logger WARNING ReinitFailedContinuing) ;;
         goto Idle)
        (fun _ =>
           logger ERROR ErrorDuringSynthesis ;;
           goto (Reinitializing true))
  | Reinitializing true =>
      init_engine ;;
      goto Idle
  | Stopping =>
      try_except
        (match worker_engine s with
         | Some h => endLoop E Worker h
         | None => ret tt
         end)
        (fun _ => ret tt) ;;
      logger INFO WorkerExiting ;;
      goto Stopped
  | Stopped => ret tt
  | Crashed => ret tt
  end.

(** Whether the thread is inside the body of the loop's outer [try]. *)
Definition in_loop_body (t : WorkerState) : bool :=
  match t with
  | Polling | Speaking _ | Playing _ | Reinitializing _ => true
  | _ => false
  end.

(** One step of the worker thread.  Inside the loop body an exception
    is caught by the outer [except Exception], which logs and loops;
    anywhere else it would leave the thread function. *)
Definition worker_step (s : Sys) : Sys :=
  match worker_code s s with
  | (Ok _, s') => s'
  | (Raise _, s') =>
      if in_loop_body (speech_thread s)
      then set_thread Idle
             (set_world (record_log (ERROR, UnexpectedWorkerError) (world s')) s')
      else set_thread Crashed s'
  end.

(** *** The facade *)

Fixpoint log_voices (i : nat) (voices : list Voice) : M World unit :=
  match voices with
  | [] => ret tt
  | v :: rest =>
      logger INFO (VoiceListed i (voice_name v)) ;;
      log_voices (S i) rest
  end.

(** The part of [__init__] that talks to the engine; it yields
    [self.engine]. *)
Definition init_facade_engine (rate voice_index : Z) : M World Handle :=
  logger INFO InitializingEngine ;;
  e <- pyttsx3_init E Caller ;;
  match e with
  | None => raise RuntimeError
  | Some h =>
      setProperty E Caller "rate" (VInt rate) h ;;
      logger INFO (SetSpeechRate rate) ;;
      setProperty E Caller "volume" (VFloat 1) h ;;
      voices <- getVoices E Caller h ;;
      logger INFO (AvailableVoices (List.length voices)) ;;
      log_voices 0 voices ;;
      (if (voice_index <? Z.of_nat (List.length voices))%Z
       then match py_index voices voice_index with
            | Some v =>
                setProperty E Caller "voice" (VStr (voice_id v)) h ;;
                logger INFO (UsingVoice (voice_name v))
            | None => raise IndexError
            end
       else logger WARNING (VoiceIndexNotAvailable voice_index)) ;;
      ret h
  end.

(** [TextToSpeech(rate, voice_index)]: on success the object, with an
    empty queue, [is_running] set and the worker thread started; any
    exception is logged and re-raised. *)
Definition TextToSpeech (rate voice_index : Z) : M World Sys :=
  try_except
    (h <- init_facade_engine rate voice_index ;;
     logger INFO InitializedThreadStarted ;;
     fun w =>
       (Ok {| world := w; engine := h; speech_queue := [];
              is_running := true; speech_thread := Starting;
              worker_engine := None; caller := Ready;
              stops_returned := 0; escaped := 0 |}, w))
    (fun e =>
       logger ERROR FailedToInitialize ;;
       raise e).

Definition construct (rate voice_index : Z) : result Sys :=
  fst (TextToSpeech rate voice_index empty_world).

Definition speak (text : pystr) : M Sys unit :=
  if negb (truthy text) || negb (truthy (strip text))
  then logger DEBUG SpeakCalledWithEmptyText
  else logger DEBUG (QueueingText text) ;;
       put (Some text).

(** [time.sleep(0.5)] changes nothing in the state. *)
Definition speak_blocking (text : pystr) : M Sys unit :=
  if speakable text
  then logger INFO (QueueingTextWillWait text) ;;
       put (Some text)
  else ret tt.

Definition set_property (name : string) (v : value) : M Sys unit :=
  try_except
    (fun s =>
       (setProperty E Caller name v (engine s) ;;
        logger INFO (SetPropertyTo name v)) s)
    (fun _ => logger ERROR (ErrorSettingProperty name)).

Definition get_property (name : string) : M Sys (option value) :=
  try_except
    (fun s => (v <- getProperty E Caller name (engine s) ;; ret (Some v)) s)
    (fun _ => logger ERROR (ErrorGettingProperty name) ;; ret None).

(** [stop()] in three pieces, between which the worker may run:
    the flag, the sentinel, the join. *)
Definition stop_set_flag : M Sys unit :=
  logger INFO StoppingEngine ;;
  modify (set_running false) ;;
  modify (set_caller StopFlagSet).

Definition stop_put_sentinel : M Sys unit :=
  put None ;;
  modify (set_caller StopSignalled).

Definition stop_return : M Sys unit :=
  logger INFO StoppedSuccessfully ;;
  modify stop_returned.

(** [self.speech_thread.is_alive()] *)
Definition is_alive (s : Sys) : bool :=
  match speech_thread s with
  | Stopped | Crashed => false
  | _ => true
  end.

(** The bound of [self.speech_thread.join(timeout=3)], in seconds. *)
Definition JOIN_TIMEOUT : Z := 3.

(** *** Interleaving the two threads *)

Inductive Op :=
| OSpeak (text : pystr)
| OSpeakBlocking (text : pystr)
| OSetProperty (name : string) (v : value)
| OGetProperty (name : string)
| OStop.

(** A tick of the scheduler.
    - [Work]: the worker thread takes its next step.
    - [Invoke op]: the caller, between calls, makes a facade call;
      all but [stop()] complete within the tick.
    - [Proceed]: the caller, inside [stop()], takes its next step; at
      the join it gets through only when the thread is not alive.
    - [JoinTimeout]: the caller, blocked in the join, gives up
      because [JOIN_TIMEOUT] seconds have passed.
    A tick that is not enabled leaves the state as it is. *)
Inductive Tick := Work | Invoke (op : Op) | Proceed | JoinTimeout.

(** A facade call runs in the caller's thread: an exception it does
    not handle reaches the caller. *)
Definition facade {A} (c : M Sys A) (s : Sys) : Sys :=
  match c s with
  | (Ok _, s') => s'
  | (Raise _, s') => exception_escaped s'
  end.

Definition invoke (op : Op) : Sys -> Sys :=
  match op with
  | OSpeak text => facade (speak text)
  | OSpeakBlocking text => facade (speak_blocking text)
  | OSetProperty name v => facade (set_property name v)
  | OGetProperty name => facade (get_property name)
  | OStop => facade stop_set_flag
  end.

Definition tick (t : Tick) (s : Sys) : Sys :=
  match t, caller s with
  | Work, _ => worker_step s
  | Invoke op, Ready => invoke op s
  | Proceed, StopFlagSet => facade stop_put_sentinel s
  | Proceed, StopSignalled =>
      if is_alive s then s else facade stop_return s
  | JoinTimeout, StopSignalled =>
      if is_alive s then facade stop_return s else s
  | _, _ => s
  end.

Definition run (sched : list Tick) (s : Sys) : Sys :=
  fold_left (fun s t => tick t s) sched s.
End Program.

(** ** Mock engines *)

Definition count_calls (p : Call -> bool) (hist : History) : nat :=
  List.length (filter (fun e => p (call e)) hist).

Definition is_Init (c : Call) : bool :=
  match c with Init => true | _ => false end.

Definition is_Say (c : Call) : bool :=
  match c with Say _ _ => true | _ => false end.

Definition two_voices : list Voice :=
  [ {| voice_id := "voice/david"; voice_name := "David" |};
    {| voice_id := "voice/zira"; voice_name := "Zira" |} ].

(** An engine on which every call succeeds; each [init()] hands out a
    fresh handle. *)
Definition good_engine : Engine :=
  {| eng_init := fun hist => Ok (Some (count_calls is_Init hist));
     eng_setProperty := fun _ _ _ _ => Ok tt;
     eng_getVoices := fun _ _ => Ok two_voices;
     eng_getProperty := fun _ _ _ => Ok (VInt 0);
     eng_say := fun _ _ _ => Ok tt;
     eng_runAndWait := fun _ _ => Ok tt;
     eng_endLoop := fun _ _ => Ok tt |}.

(** An engine whose first [k] calls of [say] raise. *)
Definition failing_say_engine (k : nat) : Engine :=
  {| eng_init := eng_init good_engine;
     eng_setProperty := eng_setProperty good_engine;
     eng_getVoices := eng_getVoices good_engine;
     eng_getProperty := eng_getProperty good_engine;
     eng_say := fun hist _ _ =>
       if count_calls is_Say hist <? k then Raise EngineError else Ok tt;
     eng_runAndWait := eng_runAndWait good_engine;
     eng_endLoop := eng_endLoop good_engine |}.

(** An engine that cannot be acquired at all. *)
Definition dead_engine : Engine :=
  {| eng_init := fun _ => Raise EngineError;
     eng_setProperty := eng_setProperty good_engine;
     eng_getVoices := eng_getVoices good_engine;
     eng_getProperty := eng_getProperty good_engine;
     eng_say := eng_say good_engine;
     eng_runAndWait := eng_runAndWait good_engine;
     eng_endLoop := eng_endLoop good_engine |}.

(** An engine that is acquired once (by the facade) and never again. *)
Definition one_shot_engine : Engine :=
  {| eng_init := fun hist =>
       if count_calls is_Init hist =? 0 then Ok (Some 0) else Raise EngineError;
     eng_setProperty := eng_setProperty good_engine;
     eng_getVoices := eng_getVoices good_engine;
     eng_getProperty := eng_getProperty good_engine;
     eng_say := eng_say good_engine;
     eng_runAndWait := eng_runAndWait good_engine;
     eng_endLoop := eng_endLoop good_engine |}.

(** An engine that is acquired twice, by the facade and by the worker
    when it starts, and never again. *)
Definition two_shot_engine : Engine :=
  {| eng_init := fun hist =>
       if count_calls is_Init hist <? 2
       then Ok (Some (count_calls is_Init hist))
       else Raise EngineError;
     eng_setProperty := eng_setProperty good_engine;
     eng_getVoices := eng_getVoices good_engine;
     eng_getProperty := eng_getProperty good_engine;
     eng_say := eng_say good_engine;
     eng_runAndWait := eng_runAndWait good_engine;
     eng_endLoop := eng_endLoop good_engine |}.

(** The object a successful construction yields, or a blank one. *)
Definition blank : Sys :=
  {| world := empty_world; engine := 0; speech_queue := [];
     is_running := false; speech_thread := Stopped; worker_engine := None;
     caller := Ready; stops_returned := 0; escaped := 0 |}.

Definition constructed (E : Engine) (rate voice_index : Z) : Sys :=
  match construct E rate voice_index with
  | Ok s => s
  | Raise _ => blank
  end.

(** ** Observations on traces and logs *)

(** The calls the worker thread made, in order. *)
Definition worker_calls (hist : History) : list Call :=
  map call (filter (fun e => match who e with Worker => true | Caller => false end) hist).

(** The texts on which the worker called [say], in order. *)
Definition said (hist : History) : list pystr :=
  flat_map (fun c => match c with Say _ text => [text] | _ => [] end)
           (worker_calls hist).

(** The texts the worker set out to speak (its "Speaking: ..." lines). *)
Definition attempted (l : list LogRecord) : list pystr :=
  flat_map (fun r => match snd r with SpeakingText text => [text] | _ => [] end) l.

(** The values the worker gave to property [name]. *)
Definition worker_settings (name : string) (hist : History) : list value :=
  flat_map (fun c => match c with
                     | SetProperty _ n v => if String.eqb n name then [v] else []
                     | _ => []
                     end)
           (worker_calls hist).

(** * Properties *)

(** ** [strip] and blank texts *)

Lemma lstrip_blank (s : pystr) :
  forallb is_space s = true -> lstrip s = [].
Proof.
  induction s as [|c s IH]; cbn; [reflexivity|].
  intros H. apply andb_true_iff in H as [Hc Hs].
  rewrite Hc. auto.
Qed.

Lemma strip_blank (s : pystr) :
  forallb is_space s = true -> strip s = [].
Proof.
  intros H. unfold strip, rstrip. rewrite (lstrip_blank s H). reflexivity.
Qed.

Lemma lstrip_ends_unspaced (s : pystr) (c : N) :
  is_space c = false -> lstrip (s ++ [c]) <> [].
Proof.
  intros Hc. induction s as [|d s IH]; cbn.
  - rewrite Hc. discriminate.
  - destruct (is_space d); [exact IH | discriminate].
Qed.

Lemma lstrip_unblank (s : pystr) :
  forallb is_space s = false ->
  exists c rest, lstrip s = c :: rest /\ is_space c = false.
Proof.
  induction s as [|d s IH]; cbn; [discriminate|].
  destruct (is_space d) eqn:Hd; cbn; intros H.
  - exact (IH H).
  - exists d, s. auto.
Qed.

(** [text and text.strip()] holds exactly of the texts that have a
    character other than white space. *)
Lemma speakable_spec (text : pystr) :
  speakable text = negb (forallb is_space text).
Proof.
  unfold speakable.
  destruct (forallb is_space text) eqn:Hb; cbn.
  - rewrite (strip_blank _ Hb). apply andb_false_r.
  - destruct (lstrip_unblank _ Hb) as (c & rest & Hl & Hc).
    destruct text as [|d text]; [discriminate|]. cbn [truthy andb].
    unfold strip, rstrip. rewrite Hl. cbn [rev].
    pose proof (lstrip_ends_unspaced (rev rest) c Hc) as Hne.
    destruct (lstrip (rev rest ++ [c])) as [|x l] eqn:Hx; [contradiction|].
    cbn [rev]. destruct (rev l); reflexivity.
Qed.

(** ** Proof automation for the embedded code *)

Ltac unfold_py :=
  unfold tick, worker_step, worker_code, invoke, facade, speak, speak_blocking,
    set_property, get_property, stop_set_flag, stop_put_sentinel, stop_return,
    is_alive, put, goto, modify, logger, pyttsx3_init, setProperty, getVoices,
    getProperty, say, runAndWait, endLoop, on_engine, engine_call, try_except,
    bind, ret, raise in *.

(** Setters are evaluated innermost first, so that nested updates do
    not duplicate their argument. *)
Ltac unfold_sys :=
  cbv [set_world set_queue set_running set_thread set_worker_engine
       set_caller stop_returned exception_escaped record_event record_log
       world engine speech_queue is_running speech_thread worker_engine
       caller stops_returned escaped trace log
       the_world with_world HasWorld_Sys HasWorld_World].

(** Case analysis on an answer of the engine that the goal waits for. *)
Ltac break_engine E :=
  match goal with
  | |- context [eng_init E ?h] =>
      destruct (eng_init E h) as [[?|]|?] eqn:?
  | |- context [eng_setProperty E ?h ?a ?b ?c] =>
      destruct (eng_setProperty E h a b c) as [[]|?] eqn:?
  | |- context [eng_getVoices E ?h ?a] =>
      destruct (eng_getVoices E h a) as [[|? ?]|?] eqn:?
  | |- context [eng_getProperty E ?h ?a ?b] =>
      destruct (eng_getProperty E h a b) as [?|?] eqn:?
  | |- context [eng_say E ?h ?a ?b] =>
      destruct (eng_say E h a b) as [[]|?] eqn:?
  | |- context [eng_runAndWait E ?h ?a] =>
      destruct (eng_runAndWait E h a) as [[]|?] eqn:?
  | |- context [eng_endLoop E ?h ?a] =>
      destruct (eng_endLoop E h a) as [[]|?] eqn:?
  end.

Ltac break_engine_all E :=
  cbn; repeat (break_engine E; cbn); unfold_sys; cbn.

(** ** [init_engine] *)

(** A state that holds nothing but a trace and a worker engine. *)
Definition bare (tr : History) (we : option Handle) : Sys :=
  {| world := {| trace := tr; log := [] |}; engine := 0; speech_queue := [];
     is_running := false; speech_thread := Stopped; worker_engine := we;
     caller := Ready; stops_returned := 0; escaped := 0 |}.

(** What [init_engine()] does, as a function of all it reads: whether
    it worked, the calls it made, the worker engine it leaves, and its
    log lines. *)
Definition reinit (E : Engine) (tr : History) (we : option Handle)
  : bool * History * option Handle * list LogRecord :=
  let r := init_engine E (bare tr we) in
  (match fst r with Ok b => b | Raise _ => false end,
   skipn (List.length tr) (trace (world (snd r))),
   worker_engine (snd r),
   log (world (snd r))).
Arguments reinit : simpl never.

Definition is_worker_event (e : Event) : bool :=
  match who e with Worker => true | Caller => false end.

Definition is_say_event (e : Event) : bool := is_Say (call e).

Lemma skipn_app_exact {A} (l l' : list A) : skipn (List.length l) (l ++ l') = l'.
Proof. induction l; cbn; auto. Qed.

Section InitEngine.
Variable E : Engine.

(** [init_engine()] never raises; it reads and writes only the trace
    and [worker_engine], and appends to the log. *)
Lemma init_engine_eq (s : Sys) :
  init_engine E s =
  let '(ok, evs, we', lines) := reinit E (trace (world s)) (worker_engine s) in
  (Ok ok,
   set_worker_engine we'
     (set_world {| trace := trace (world s) ++ evs;
                   log := log (world s) ++ lines |} s)).
Proof.
  destruct s as [[tr l] e q r t we c n x].
  unfold reinit, bare, init_engine. unfold_py.
  destruct we; break_engine_all E;
    repeat rewrite <- app_assoc; cbn [app];
    rewrite ?skipn_app_exact; reflexivity.
Qed.

(** The calls of [init_engine()] are the worker's, none of them is
    [say], the only rate it sets is 100, and none of its log lines
    announces an utterance. *)
Lemma reinit_events (tr : History) (we : option Handle) :
  let '(_, evs, _, lines) := reinit E tr we in
  forallb is_worker_event evs = true /\
  said evs = [] /\
  attempted lines = [] /\
  Forall (eq (VInt 100)) (worker_settings "rate" evs).
Proof.
  unfold reinit, bare, init_engine. unfold_py.
  destruct we; break_engine_all E;
    repeat rewrite <- app_assoc; cbn [app];
    rewrite ?skipn_app_exact; cbv; repeat split; repeat constructor.
Qed.

(** It first releases the engine it holds, if any, and then asks for
    a new one; what it leaves in [worker_engine] is what
    [pyttsx3.init()] returned, or [None] if that raised. *)
Lemma reinit_calls (tr : History) (we : option Handle) :
  let '(_, evs, we', _) := reinit E tr we in
  exists released ok rest,
    evs = released ++ {| who := Worker; call := Init; succeeded := ok |} :: rest /\
    map call released = match we with Some h => [EndLoop h] | None => [] end /\
    we' = match eng_init E (tr ++ released) with
          | Ok e => e
          | Raise _ => None
          end.
Proof.
  unfold reinit, bare, init_engine. unfold_py.
  destruct we as [h|];
    [ break_engine_all E;
      repeat rewrite <- app_assoc; cbn [app];
      rewrite ?skipn_app_exact; eexists [_], _, _
    | break_engine_all E;
      repeat rewrite <- app_assoc; cbn [app];
      rewrite ?skipn_app_exact; eexists [], _, _ ];
    (split; [reflexivity|]); (split; [reflexivity|]);
    rewrite ?app_nil_r;
    repeat match goal with H : _ = _ |- _ => rewrite H end; reflexivity.
Qed.
End InitEngine.

(** ** Steps of the two threads *)

Ltac break_reinit E :=
  match goal with
  | H : reinit E ?tr ?we = _ |- context [reinit E ?tr ?we] => rewrite H
  | |- context [reinit E ?tr ?we] =>
      let H := fresh "Hre" in
      pose proof (reinit_events E tr we) as H;
      destruct (reinit E tr we) as [[[? ?] ?] ?] eqn:?;
      destruct H as (? & ? & ? & ?)
  end.

Ltac break_var :=
  match goal with
  | |- context [match ?x with _ => _ end] => is_var x; destruct x
  | |- context [if ?x then _ else _] => is_var x; destruct x
  end.

Ltac break_test :=
  match goal with
  | H : speakable ?p = _ |- context [speakable ?p] => rewrite H
  | |- context [speakable ?p] => destruct (speakable p) eqn:?
  | |- context [truthy ?p] => destruct (truthy p) eqn:?
  end.

(** Runs one step of the embedded code on a state given by its fields,
    splitting on everything the step reads. *)
Ltac step_cases E :=
  unfold_py;
  repeat (unfold_sys; cbn;
          first [ rewrite !init_engine_eq; unfold_sys; break_reinit E
                | break_var
                | break_engine E
                | break_test ]);
  unfold_sys; cbn.

Ltac destruct_sys s :=
  let tr := fresh "tr" in
  let l := fresh "l" in
  let q := fresh "q" in
  let t := fresh "t" in
  let we := fresh "we" in
  let c := fresh "c" in
  destruct s as [[tr l] ? q ? t we c ? ?];
  cbn [world trace log engine speech_queue is_running speech_thread
       worker_engine caller stops_returned escaped] in *.

Lemma worker_calls_app (h1 h2 : History) :
  worker_calls (h1 ++ h2) = worker_calls h1 ++ worker_calls h2.
Proof. unfold worker_calls. rewrite filter_app, map_app. reflexivity. Qed.

Lemma said_app (h1 h2 : History) : said (h1 ++ h2) = said h1 ++ said h2.
Proof. unfold said. rewrite worker_calls_app, flat_map_app. reflexivity. Qed.

Lemma attempted_app (l1 l2 : list LogRecord) :
  attempted (l1 ++ l2) = attempted l1 ++ attempted l2.
Proof. apply flat_map_app. Qed.

Lemma worker_settings_app (name : string) (h1 h2 : History) :
  worker_settings name (h1 ++ h2) =
  worker_settings name h1 ++ worker_settings name h2.
Proof. unfold worker_settings. rewrite worker_calls_app, flat_map_app. reflexivity. Qed.


Lemma run_cons (E : Engine) (t : Tick) (sched : list Tick) (s : Sys) :
  run E (t :: sched) s = run E sched (tick E t s).
Proof. reflexivity. Qed.

Lemma run_nil (E : Engine) (s : Sys) : run E [] s = s.
Proof. reflexivity. Qed.

Arguments run : simpl never.

Definition event (t : Thread) (c : Call) (ok : bool) : Event :=
  {| who := t; call := c; succeeded := ok |}.

Section WorkerSteps.
Variable E : Engine.

Ltac step_equation s :=
  intros; destruct_sys s; subst; step_cases E; reflexivity.

(** The equations of [worker_step], one for each place the thread
    can be in. *)
Lemma step_Starting (s : Sys) :
  speech_thread s = Starting ->
  worker_step E s =
  let '(ok, evs, we', lines) := reinit E (trace (world s)) (worker_engine s) in
  set_thread (if ok then Idle else Stopped)
    (set_worker_engine we'
       (set_world {| trace := trace (world s) ++ evs;
                     log := (log (world s) ++ [(INFO, WorkerStarted)]) ++ lines |} s)).
Proof. step_equation s. Qed.

Lemma step_Idle (s : Sys) :
  speech_thread s = Idle ->
  worker_step E s = set_thread (if is_running s then Polling else Stopping) s.
Proof. step_equation s. Qed.

Lemma step_Polling (s : Sys) :
  speech_thread s = Polling ->
  worker_step E s =
  match speech_queue s with
  | [] => set_thread Idle s
  | None :: q =>
      set_thread Stopping
        (set_world (record_log (INFO, ReceivedShutdownSignal) (world s))
           (set_queue q s))
  | Some text :: q =>
      if speakable text
      then set_thread (Speaking text)
             (set_world (record_log (INFO, SpeakingText text) (world s))
                (set_queue q s))
      else set_thread Idle
             (set_world (record_log (DEBUG, ReceivedEmptyText) (world s))
                (set_queue q s))
  end.
Proof. step_equation s. Qed.

Lemma step_Speaking (s : Sys) (text : pystr) :
  speech_thread s = Speaking text ->
  worker_step E s =
  match worker_engine s with
  | None =>
      set_thread (Reinitializing true)
        (set_world (record_log (ERROR, ErrorDuringSynthesis) (world s)) s)
  | Some h =>
      match eng_say E (trace (world s)) h text with
      | Ok _ =>
          set_thread (Playing text)
            (set_world (record_event (event Worker (Say h text) true) (world s)) s)
      | Raise _ =>
          set_thread (Reinitializing true)
            (set_world
               (record_log (ERROR, ErrorDuringSynthesis)
                  (record_event (event Worker (Say h text) false) (world s))) s)
      end
  end.
Proof. step_equation s. Qed.

Lemma step_Playing (s : Sys) (text : pystr) :
  speech_thread s = Playing text ->
  worker_step E s =
  match worker_engine s with
  | None =>
      set_thread (Reinitializing true)
        (set_world (record_log (ERROR, ErrorDuringSynthesis) (world s)) s)
  | Some h =>
      match eng_runAndWait E (trace (world s)) h with
      | Ok _ =>
          set_thread (Reinitializing false)
            (set_world
               (record_log (DEBUG, ReinitializingForNext)
                  (record_log (INFO, FinishedSpeaking text)
                     (record_event (event Worker (RunAndWait h) true) (world s)))) s)
      | Raise _ =>
          set_thread (Reinitializing true)
            (set_world
               (record_log (ERROR, ErrorDuringSynthesis)
                  (record_event (event Worker (RunAndWait h) false) (world s))) s)
      end
  end.
Proof. step_equation s. Qed.

Lemma step_Reinitializing (s : Sys) (after_error : bool) :
  speech_thread s = Reinitializing after_error ->
  worker_step E s =
  let '(ok, evs, we', lines) := reinit E (trace (world s)) (worker_engine s) in
  set_thread Idle
    (set_worker_engine we'
       (set_world
          {| trace := trace (world s) ++ evs;
             log := (log (world s) ++ lines) ++
                    (if after_error || ok then []
                     else [(WARNING, ReinitFailedContinuing)]) |} s)).
Proof.
  intros; destruct_sys s; subst; destruct after_error;
    step_cases E; rewrite ?app_nil_r; reflexivity.
Qed.

Lemma step_Stopping (s : Sys) :
  speech_thread s = Stopping ->
  worker_step E s =
  set_thread Stopped
    (set_world
       (record_log (INFO, WorkerExiting)
          match worker_engine s with
          | Some h =>
              record_event
                (event Worker (EndLoop h)
                   (is_ok (eng_endLoop E (trace (world s)) h)))
                (world s)
          | None => world s
          end) s).
Proof. step_equation s. Qed.

Lemma step_dead (s : Sys) : is_alive s = false -> worker_step E s = s.
Proof.
  unfold is_alive. destruct_sys s. destruct t; try discriminate; reflexivity.
Qed.
End WorkerSteps.

Arguments said : simpl never.
Arguments attempted : simpl never.
Arguments worker_calls : simpl never.
Arguments worker_settings : simpl never.

Lemma said_cons (e : Event) (h : History) :
  said (e :: h) = match who e, call e with
                  | Worker, Say _ text => [text]
                  | _, _ => []
                  end ++ said h.
Proof. destruct e as [[] [] ?]; reflexivity. Qed.

Lemma worker_calls_cons (e : Event) (h : History) :
  worker_calls (e :: h) =
  match who e with Worker => [call e] | Caller => [] end ++ worker_calls h.
Proof. destruct e as [[] ? ?]; reflexivity. Qed.

Lemma attempted_cons (r : LogRecord) (l : list LogRecord) :
  attempted (r :: l) =
  match snd r with SpeakingText text => [text] | _ => [] end ++ attempted l.
Proof. reflexivity. Qed.

Lemma worker_settings_cons (name : string) (e : Event) (h : History) :
  worker_settings name (e :: h) =
  match who e, call e with
  | Worker, SetProperty _ n v => if String.eqb n name then [v] else []
  | _, _ => []
  end ++ worker_settings name h.
Proof. destruct e as [[] [] ?]; reflexivity. Qed.

Lemma said_nil : said [] = [].
Proof. reflexivity. Qed.

Lemma worker_calls_nil : worker_calls [] = [].
Proof. reflexivity. Qed.

Lemma attempted_nil : attempted [] = [].
Proof. reflexivity. Qed.

Lemma worker_settings_nil (name : string) : worker_settings name [] = [].
Proof. reflexivity. Qed.

(** Rewrites the observations of an extended trace or log into those
    of its pieces. *)
Ltac observe :=
  repeat rewrite ?said_app, ?worker_calls_app, ?attempted_app,
    ?worker_settings_app, ?said_cons, ?worker_calls_cons,
    ?attempted_cons, ?worker_settings_cons, ?said_nil, ?worker_calls_nil,
    ?attempted_nil, ?worker_settings_nil, ?length_app;
  cbn; rewrite ?app_nil_r.

(** How many more utterances the thread can start once the flag is
    cleared, and how many more steps it can take. *)
Definition pending (t : WorkerState) : nat :=
  match t with
  | Polling | Speaking _ => 1
  | _ => 0
  end.

Definition steps_left (t : WorkerState) : nat :=
  match t with
  | Polling => 6
  | Speaking _ => 5
  | Playing _ => 4
  | Reinitializing _ | Starting => 3
  | Idle => 2
  | Stopping => 1
  | Stopped | Crashed => 0
  end.

Section Ticks.
Variable E : Engine.

Lemma worker_step_frame (s : Sys) :
  let s' := worker_step E s in
  engine s' = engine s /\ is_running s' = is_running s /\
  caller s' = caller s /\ stops_returned s' = stops_returned s /\
  escaped s' = escaped s.
Proof.
  destruct_sys s. step_cases E; repeat split; reflexivity.
Qed.

Lemma worker_step_pending (s : Sys) :
  is_running s = false ->
  let s' := worker_step E s in
  List.length (said (trace (world s'))) + pending (speech_thread s') <=
  List.length (said (trace (world s))) + pending (speech_thread s).
Proof.
  destruct_sys s. intros ->.
  step_cases E; observe;
    repeat match goal with H : said _ = [] |- _ => rewrite H end; cbn; lia.
Qed.

Lemma worker_step_steps_left (s : Sys) :
  is_running s = false ->
  steps_left (speech_thread (worker_step E s)) <=
  pred (steps_left (speech_thread s)).
Proof.
  destruct_sys s. intros ->.
  step_cases E; lia.
Qed.

Lemma worker_step_enters_polling (s : Sys) :
  speech_thread (worker_step E s) = Polling ->
  speech_thread s = Idle /\ is_running s = true.
Proof.
  destruct_sys s. step_cases E; intros; try discriminate; auto.
Qed.

Lemma worker_step_rate (s : Sys) :
  Forall (eq (VInt 100)) (worker_settings "rate" (trace (world s))) ->
  Forall (eq (VInt 100))
    (worker_settings "rate" (trace (world (worker_step E s)))).
Proof.
  destruct_sys s. intros Hs.
  step_cases E; observe; rewrite ?app_nil_r, ?Forall_app;
    repeat split; auto.
Qed.

(** A step of the caller leaves the worker thread alone, makes no
    call in the worker's name and only ever appends to the queue. *)
Lemma caller_tick (t : Tick) (s : Sys) :
  t <> Work ->
  let s' := tick E t s in
  speech_thread s' = speech_thread s /\
  worker_engine s' = worker_engine s /\
  engine s' = engine s /\
  worker_calls (trace (world s')) = worker_calls (trace (world s)) /\
  attempted (log (world s')) = attempted (log (world s)) /\
  exists more, speech_queue s' = speech_queue s ++ more.
Proof.
  intros Ht. destruct_sys s.
  destruct t as [|op| |]; [contradiction|..]; clear Ht.
  all: step_cases E; observe; rewrite ?app_nil_r.
  all: repeat split; try reflexivity.
  all: first [ exists []; rewrite app_nil_r; reflexivity
             | eexists; reflexivity ].
Qed.

(** Nothing ever sets [is_running] again once it is cleared. *)
Lemma tick_flag (t : Tick) (s : Sys) :
  is_running s = false -> is_running (tick E t s) = false.
Proof.
  destruct_sys s. intros ->. destruct t as [|op| |];
    step_cases E; reflexivity.
Qed.

(** No facade call lets an exception through to the caller. *)
Lemma tick_escaped (t : Tick) (s : Sys) :
  escaped (tick E t s) = escaped s.
Proof.
  destruct_sys s. destruct t as [|op| |]; step_cases E; reflexivity.
Qed.

Lemma tick_stops (t : Tick) (s : Sys) :
  stops_returned s <= stops_returned (tick E t s).
Proof.
  destruct_sys s. destruct t as [|op| |]; step_cases E; lia.
Qed.

Lemma tick_trace (t : Tick) (s : Sys) :
  exists evs, trace (world (tick E t s)) = trace (world s) ++ evs.
Proof.
  destruct_sys s. destruct t as [|op| |]; step_cases E;
    rewrite <- ?app_assoc;
    first [ exists []; rewrite app_nil_r; reflexivity
          | eexists; reflexivity ].
Qed.
End Ticks.

(** ** Construction *)

Fixpoint voice_lines (i : nat) (voices : list Voice) : list LogRecord :=
  match voices with
  | [] => []
  | v :: rest => (INFO, VoiceListed i (voice_name v)) :: voice_lines (S i) rest
  end.

Lemma attempted_voice_lines (voices : list Voice) (i : nat) :
  attempted (voice_lines i voices) = [].
Proof.
  revert i. induction voices as [|v rest IH]; intros i; [reflexivity|].
  change (voice_lines i (v :: rest))
    with ([(INFO, VoiceListed i (voice_name v))] ++ voice_lines (S i) rest).
  rewrite attempted_app, IH. reflexivity.
Qed.

Section Construction.
Variable E : Engine.

Lemma log_voices_eq (voices : list Voice) (i : nat) (w : World) :
  log_voices i voices w =
  (Ok tt, {| trace := trace w; log := log w ++ voice_lines i voices |}).
Proof.
  revert i w. induction voices as [|v rest IH]; intros i w.
  - destruct w. cbn. rewrite app_nil_r. reflexivity.
  - cbn [log_voices voice_lines]. unfold bind, logger. cbn.
    rewrite IH. cbn. rewrite <- app_assoc. reflexivity.
Qed.

Ltac facade_cases :=
  unfold_py;
  repeat (unfold_sys; cbn;
          first [ rewrite log_voices_eq
                | match goal with
                  | |- context [eng_getVoices E ?h ?a] =>
                      destruct (eng_getVoices E h a) as [?|?] eqn:?
                  | |- context [(?a <? ?b)%Z] => destruct (a <? b)%Z eqn:?
                  | |- context [py_index ?l ?i] => destruct (py_index l i) eqn:?
                  end
                | break_engine E ]);
  unfold_sys; cbn.

(** A constructed object is fresh: nothing queued, the flag set, the
    thread started and not yet run, and no call made in the worker's
    name. *)
Lemma construct_fresh (rate voice_index : Z) (s : Sys) :
  construct E rate voice_index = Ok s ->
  caller s = Ready /\ stops_returned s = 0 /\ escaped s = 0 /\
  speech_thread s = Starting /\ speech_queue s = [] /\
  is_running s = true /\ worker_engine s = None /\
  worker_calls (trace (world s)) = [] /\
  attempted (log (world s)) = [].
Proof.
  unfold construct, TextToSpeech, init_facade_engine, empty_world.
  facade_cases.
  all: intros H; inversion H; subst; clear H; cbn.
  all: observe; rewrite ?attempted_voice_lines.
  all: repeat split; reflexivity.
Qed.
End Construction.

(** ** Schedules *)

Definition is_Work (t : Tick) : bool :=
  match t with Work => true | _ => false end.

(** How many steps a schedule gives the worker. *)
Definition works_in (sched : list Tick) : nat :=
  List.length (filter is_Work sched).

(** The schedule in which only the worker runs, for [n] steps. *)
Definition works (n : nat) : list Tick := repeat Work n.

(** What holds of [is_running] and of the queue while and after
    [stop()] runs: the flag is cleared from its first step on, and from
    the sentinel on a worker that is polling has the sentinel ahead of
    it. *)
Definition stop_inv (s : Sys) : Prop :=
  (caller s <> Ready \/ 0 < stops_returned s -> is_running s = false) /\
  (caller s = StopSignalled \/ 0 < stops_returned s ->
   speech_thread s = Polling -> In None (speech_queue s)).

Section Runs.
Variable E : Engine.

Ltac by_schedule sched s :=
  revert s; induction sched as [|t sched IH]; intros s;
  [ rewrite ?run_nil; cbv zeta | rewrite run_cons ].

Lemma run_flag (sched : list Tick) (s : Sys) :
  is_running s = false -> is_running (run E sched s) = false.
Proof.
  by_schedule sched s; auto. intros H. apply IH, tick_flag, H.
Qed.

Lemma run_escaped (sched : list Tick) (s : Sys) :
  escaped (run E sched s) = escaped s.
Proof.
  by_schedule sched s; auto. rewrite IH. apply tick_escaped.
Qed.

Lemma run_stops (sched : list Tick) (s : Sys) :
  stops_returned s <= stops_returned (run E sched s).
Proof.
  by_schedule sched s; auto.
  pose proof (tick_stops E t s). pose proof (IH (tick E t s)). lia.
Qed.

Lemma tick_stop_inv (t : Tick) (s : Sys) :
  stop_inv s -> stop_inv (tick E t s).
Proof.
  intros [Hflag Hq]. destruct t as [|op| |].
  - (* the worker *)
    change (tick E Work s) with (worker_step E s).
    destruct (worker_step_frame E s) as (_ & Hr & Hc & Hn & _).
    unfold stop_inv. rewrite Hr, Hc, Hn. split; [exact Hflag|].
    intros Hpre Hpoll.
    apply worker_step_enters_polling in Hpoll as [_ Hrun].
    rewrite Hflag in Hrun; [discriminate|].
    destruct Hpre as [Hpre|Hpre]; [left; rewrite Hpre; discriminate | right; exact Hpre].
  - (* a facade call *)
    revert Hflag Hq. destruct_sys s. intros Hflag Hq.
    destruct c; [destruct op|..]; step_cases E; split; intros; auto;
      try (apply in_or_app; left; apply Hq; auto);
      try (destruct H; [discriminate | auto]).
  - revert Hflag Hq. destruct_sys s. intros Hflag Hq.
    destruct c; step_cases E; split; intros; auto;
      try (apply in_or_app; right; left; reflexivity);
      try (apply Hq; auto);
      try (apply Hflag; left; discriminate).
  - revert Hflag Hq. destruct_sys s. intros Hflag Hq.
    destruct c; step_cases E; split; intros; auto;
      try (apply Hq; auto);
      try (apply Hflag; left; discriminate).
Qed.

Lemma run_stop_inv (sched : list Tick) (s : Sys) :
  stop_inv s -> stop_inv (run E sched s).
Proof.
  by_schedule sched s; auto. intros H. apply IH, tick_stop_inv, H.
Qed.

Lemma constructed_stop_inv (rate voice_index : Z) (s : Sys) :
  construct E rate voice_index = Ok s -> stop_inv s.
Proof.
  intros H. apply construct_fresh in H as (Hc & Hn & _).
  split; rewrite Hc, Hn; intros [?|?]; try congruence; lia.
Qed.

(** Once [stop()] has returned in a run from construction,
    [is_running] is cleared. *)
Lemma stopped_flag (rate voice_index : Z) (s0 : Sys) (sched : list Tick) :
  construct E rate voice_index = Ok s0 ->
  0 < stops_returned (run E sched s0) ->
  is_running (run E sched s0) = false.
Proof.
  intros H Hn.
  apply constructed_stop_inv, (run_stop_inv sched) in H.
  apply H. right. exact Hn.
Qed.
End Runs.

(** ** After [stop()] *)

Section AfterStop.
Variable E : Engine.

Ltac by_schedule sched s :=
  revert s; induction sched as [|t sched IH]; intros s;
  [ rewrite ?run_nil; cbv zeta | rewrite run_cons ].

Lemma caller_tick_said (t : Tick) (s : Sys) :
  t <> Work ->
  said (trace (world (tick E t s))) = said (trace (world s)).
Proof.
  intros Ht. destruct (caller_tick E t s Ht) as (_ & _ & _ & Hw & _).
  unfold said. rewrite Hw. reflexivity.
Qed.

Lemma tick_pending (t : Tick) (s : Sys) :
  is_running s = false ->
  let s' := tick E t s in
  List.length (said (trace (world s'))) + pending (speech_thread s') <=
  List.length (said (trace (world s))) + pending (speech_thread s).
Proof.
  intros Hr. destruct t as [|op| |].
  - apply worker_step_pending, Hr.
  - cbv zeta. rewrite caller_tick_said by discriminate.
    destruct (caller_tick E (Invoke op) s) as (-> & _); [discriminate|lia].
  - cbv zeta. rewrite caller_tick_said by discriminate.
    destruct (caller_tick E Proceed s) as (-> & _); [discriminate|lia].
  - cbv zeta. rewrite caller_tick_said by discriminate.
    destruct (caller_tick E JoinTimeout s) as (-> & _); [discriminate|lia].
Qed.

Lemma run_pending (sched : list Tick) (s : Sys) :
  is_running s = false ->
  let s' := run E sched s in
  List.length (said (trace (world s'))) + pending (speech_thread s') <=
  List.length (said (trace (world s))) + pending (speech_thread s).
Proof.
  by_schedule sched s; [lia|]. intros Hr.
  pose proof (tick_pending t s Hr) as H1.
  pose proof (IH (tick E t s) (tick_flag E t s Hr)) as H2.
  cbv zeta in *. lia.
Qed.

Lemma tick_steps_left (t : Tick) (s : Sys) :
  is_running s = false ->
  steps_left (speech_thread (tick E t s)) <=
  steps_left (speech_thread s) - (if is_Work t then 1 else 0).
Proof.
  intros Hr. destruct t as [|op| |]; cbn [is_Work].
  - pose proof (worker_step_steps_left E s Hr).
    change (tick E Work s) with (worker_step E s). lia.
  - destruct (caller_tick E (Invoke op) s) as (-> & _); [discriminate|lia].
  - destruct (caller_tick E Proceed s) as (-> & _); [discriminate|lia].
  - destruct (caller_tick E JoinTimeout s) as (-> & _); [discriminate|lia].
Qed.

Lemma run_steps_left (sched : list Tick) (s : Sys) :
  is_running s = false ->
  steps_left (speech_thread (run E sched s)) <=
  steps_left (speech_thread s) - works_in sched.
Proof.
  by_schedule sched s; [cbn; lia|]. intros Hr.
  pose proof (tick_steps_left t s Hr) as H1.
  pose proof (IH (tick E t s) (tick_flag E t s Hr)) as H2.
  unfold works_in in *. cbn [filter]. destruct (is_Work t); cbn [List.length]; lia.
Qed.

Lemma steps_left_alive (s : Sys) :
  steps_left (speech_thread s) = 0 -> is_alive s = false.
Proof.
  unfold is_alive. destruct (speech_thread s); cbn; congruence.
Qed.

Lemma steps_left_bound (t : WorkerState) : steps_left t <= 6.
Proof. destruct t; cbn; lia. Qed.

(** A thread that has ended stays ended and calls nothing. *)
Lemma run_dead (sched : list Tick) (s : Sys) :
  is_alive s = false ->
  is_alive (run E sched s) = false /\
  worker_calls (trace (world (run E sched s))) = worker_calls (trace (world s)) /\
  speech_thread (run E sched s) = speech_thread s.
Proof.
  by_schedule sched s; [auto|]. intros Hd.
  assert (Ht : is_alive (tick E t s) = false /\
               worker_calls (trace (world (tick E t s))) =
               worker_calls (trace (world s)) /\
               speech_thread (tick E t s) = speech_thread s).
  { destruct t as [|op| |].
    - change (tick E Work s) with (worker_step E s).
      rewrite step_dead by exact Hd. auto.
    - destruct (caller_tick E (Invoke op) s) as (Ha & _ & _ & Hb & _);
        [discriminate|]. unfold is_alive in *. rewrite Ha. auto.
    - destruct (caller_tick E Proceed s) as (Ha & _ & _ & Hb & _);
        [discriminate|]. unfold is_alive in *. rewrite Ha. auto.
    - destruct (caller_tick E JoinTimeout s) as (Ha & _ & _ & Hb & _);
        [discriminate|]. unfold is_alive in *. rewrite Ha. auto. }
  destruct Ht as (Ha & Hb & Hc).
  destruct (IH _ Ha) as (Ha' & Hb' & Hc').
  repeat split; congruence.
Qed.
End AfterStop.

(** ** Two runs that the engine cannot tell apart *)

(** Two states with the same thread states, flags and engine-call
    trace, whose logs announce the same utterances.  The queues and
    the rest of the logs may differ. *)
Record same_view (s1 s2 : Sys) : Prop := {
  sv_trace : trace (world s1) = trace (world s2);
  sv_attempted : attempted (log (world s1)) = attempted (log (world s2));
  sv_engine : engine s1 = engine s2;
  sv_running : is_running s1 = is_running s2;
  sv_thread : speech_thread s1 = speech_thread s2;
  sv_worker_engine : worker_engine s1 = worker_engine s2;
  sv_caller : caller s1 = caller s2;
  sv_stops : stops_returned s1 = stops_returned s2;
  sv_escaped : escaped s1 = escaped s2
}.

(** How one tick changes the two queues: not at all, by the same item
    put at the tail, or by a [get] of the worker, which then is no
    longer polling. *)
Definition queue_step (s1 s1' s2 s2' : Sys) : Prop :=
  (speech_queue s1' = speech_queue s1 /\ speech_queue s2' = speech_queue s2) \/
  (exists x, speech_queue s1' = speech_queue s1 ++ [x] /\
             speech_queue s2' = speech_queue s2 ++ [x]) \/
  (speech_thread s1 = Polling /\ speech_thread s1' <> Polling /\
   speech_queue s1' = tl (speech_queue s1) /\
   speech_queue s2' = tl (speech_queue s2)).

Section SameView.
Variable E : Engine.

Ltac view_done Hat :=
  split;
  [ constructor;
    cbn [world trace log engine speech_queue is_running speech_thread
         worker_engine caller stops_returned escaped];
    rewrite ?attempted_app, ?Hat; reflexivity
  | ].

(** The same tick keeps such states alike, as long as a polling
    worker finds the same item at the head of both queues. *)
Lemma tick_same_view (t : Tick) (s1 s2 : Sys) :
  same_view s1 s2 ->
  (speech_thread s1 = Polling ->
   hd_error (speech_queue s1) = hd_error (speech_queue s2)) ->
  same_view (tick E t s1) (tick E t s2) /\
  queue_step s1 (tick E t s1) s2 (tick E t s2).
Proof.
  intros [Htr Hat ? ? ? ? ? ? ?] Hq.
  destruct s1 as [[tr1 l1] e1 q1 r1 t1 we1 c1 n1 x1].
  destruct s2 as [[tr2 l2] e2 q2 r2 t2 we2 c2 n2 x2].
  cbn [world trace log engine speech_queue is_running speech_thread
       worker_engine caller stops_returned escaped] in *.
  subst. unfold queue_step.
  destruct t as [|op| |].
  - destruct t2 as [ | | | | | [|] | | | ];
      [ clear Hq | clear Hq | specialize (Hq eq_refl) | clear Hq .. ].
    3: destruct q1 as [|[|] ?]; destruct q2 as [|[|] ?];
         try discriminate Hq; try (injection Hq as ->); try clear Hq.
    all: step_cases E; view_done Hat.
    all: try (left; split; reflexivity).
    all: right; right; repeat split; try reflexivity; discriminate.
  - destruct c2; [destruct op|..]; step_cases E; view_done Hat.
    all: try (left; split; reflexivity).
    all: right; left; eexists; split; reflexivity.
  - destruct c2; step_cases E; view_done Hat.
    all: try (left; split; reflexivity).
    all: right; left; eexists; split; reflexivity.
  - destruct c2; step_cases E; view_done Hat.
    all: left; split; reflexivity.
Qed.

(** States that differ in their logs only stay so. *)
Lemma run_same_view_same_queue (sched : list Tick) (s1 s2 : Sys) :
  same_view s1 s2 -> speech_queue s1 = speech_queue s2 ->
  same_view (run E sched s1) (run E sched s2) /\
  speech_queue (run E sched s1) = speech_queue (run E sched s2).
Proof.
  revert s1 s2. induction sched as [|t sched IH]; intros s1 s2 Hv Hq;
    [auto|]. rewrite !run_cons.
  destruct (tick_same_view t s1 s2 Hv) as [Hv' Hstep];
    [intros _; rewrite Hq; reflexivity|].
  apply IH; [exact Hv'|].
  destruct Hstep as [[-> ->] | [(x & -> & ->) | (_ & _ & -> & ->)]];
    rewrite Hq; reflexivity.
Qed.

(** What relates two runs after [stop()] whose queues differ behind
    the sentinel. *)
Definition behind_sentinel (s1 s2 : Sys) : Prop :=
  is_running s1 = false /\
  (speech_thread s1 = Polling ->
   exists ahead rest1 rest2,
     speech_queue s1 = ahead ++ None :: rest1 /\
     speech_queue s2 = ahead ++ None :: rest2).

Lemma tick_behind_sentinel (t : Tick) (s1 s2 : Sys) :
  same_view s1 s2 -> behind_sentinel s1 s2 ->
  same_view (tick E t s1) (tick E t s2) /\
  behind_sentinel (tick E t s1) (tick E t s2).
Proof.
  intros Hv [Hr Hq].
  destruct (tick_same_view t s1 s2 Hv) as [Hv' Hstep].
  { intros Hp. destruct (Hq Hp) as (ahead & r1 & r2 & -> & ->).
    destruct ahead; reflexivity. }
  split; [exact Hv'|]. split; [apply tick_flag, Hr|].
  intros Hp'.
  assert (Hp : speech_thread s1 = Polling).
  { destruct t as [|op| |].
    - apply worker_step_enters_polling in Hp' as [_ Hrun]. congruence.
    - destruct (caller_tick E (Invoke op) s1) as (Ha & _); [discriminate|]. congruence.
    - destruct (caller_tick E Proceed s1) as (Ha & _); [discriminate|]. congruence.
    - destruct (caller_tick E JoinTimeout s1) as (Ha & _); [discriminate|]. congruence. }
  destruct (Hq Hp) as (ahead & r1 & r2 & H1 & H2).
  destruct Hstep as [[-> ->] | [(x & -> & ->) | (_ & Hn & _)]].
  - eauto.
  - exists ahead, (r1 ++ [x]), (r2 ++ [x]).
    rewrite H1, H2, <- !app_assoc. auto.
  - contradiction.
Qed.

Lemma run_behind_sentinel (sched : list Tick) (s1 s2 : Sys) :
  same_view s1 s2 -> behind_sentinel s1 s2 ->
  same_view (run E sched s1) (run E sched s2).
Proof.
  revert s1 s2. induction sched as [|t sched IH]; intros s1 s2 Hv Hb;
    [auto|]. rewrite !run_cons.
  destruct (tick_behind_sentinel t s1 s2 Hv Hb). auto.
Qed.
End SameView.

(** ** The worker on its own: one utterance after the other *)

(** An engine that can always be acquired: [pyttsx3.init()] never
    raises and never returns [None].  Anything else may fail. *)
Definition acquirable (E : Engine) : Prop :=
  forall hist, exists h, eng_init E hist = Ok (Some h).


Section Utterances.
Variable E : Engine.

Lemma reinit_acquirable (tr : History) (we : option Handle) :
  acquirable E ->
  let '(_, _, we', _) := reinit E tr we in we' <> None.
Proof.
  intros Ha. pose proof (reinit_calls E tr we) as H.
  destruct (reinit E tr we) as [[[ok evs] we'] lines].
  destruct H as (released & ? & ? & _ & _ & ->).
  destruct (Ha (tr ++ released)) as [h ->]. discriminate.
Qed.





(** With nothing queued and the flag set, the worker goes round the
    loop and touches nothing. *)
Lemma idle_spin (n : nat) (s : Sys) :
  speech_thread s = Idle \/ speech_thread s = Polling ->
  is_running s = true -> speech_queue s = [] ->
  let s' := run E (works n) s in
  (speech_thread s' = Idle \/ speech_thread s' = Polling) /\
  world s' = world s /\ speech_queue s' = [] /\
  worker_engine s' = worker_engine s.
Proof.
  revert s. induction n as [|n IH]; intros s Ht Hr Hq; cbv zeta.
  - cbn [works repeat]. rewrite run_nil. auto.
  - change (works (S n)) with (Work :: works n). rewrite run_cons.
    change (tick E Work s) with (worker_step E s).
    assert (H : (speech_thread (worker_step E s) = Idle \/
                 speech_thread (worker_step E s) = Polling) /\
                is_running (worker_step E s) = true /\
                speech_queue (worker_step E s) = [] /\
                world (worker_step E s) = world s /\
                worker_engine (worker_step E s) = worker_engine s).
    { destruct Ht as [Ht|Ht].
      - rewrite step_Idle, Hr by exact Ht. cbn. auto.
      - rewrite step_Polling, Hq by exact Ht. cbn. auto. }
    destruct H as (Ht' & Hr' & Hq' & Hw & He).
    destruct (IH _ Ht' Hr' Hq') as (H1 & H2 & H3 & H4).
    split; [exact H1|]. split; [rewrite H2; exact Hw|].
    split; [exact H3|]. rewrite H4. exact He.
Qed.

End Utterances.

(** * The claims *)

Section FacadeAndWorkerClaims.
Variable E : Engine.

Lemma speak_blank (text : pystr) (s : Sys) :
  forallb is_space text = true ->
  facade (speak text) s =
  set_world (record_log (DEBUG, SpeakCalledWithEmptyText) (world s)) s.
Proof.
  intros Hb. unfold facade, speak. rewrite (strip_blank _ Hb).
  cbn [truthy negb]. rewrite orb_true_r. reflexivity.
Qed.

Lemma same_view_relog (r : LogRecord) (s : Sys) :
  attempted [r] = [] ->
  same_view (set_world (record_log r (world s)) s) s.
Proof.
  intros Hr. destruct_sys s. constructor; cbn; try reflexivity.
  rewrite attempted_app, Hr. apply app_nil_r.
Qed.

(** C4.  [speak] of a text that is empty or all white space is a
    no-op.  Nothing is put on the queue and no call reaches the engine,
    neither at once nor in whatever the two threads do afterwards: the
    run goes on exactly as if [speak] had not been called.  A blank
    item that the worker finds on the queue all the same is dropped
    without a call to the engine. *)
Theorem blank_speak_is_noop (text : pystr) (s : Sys) (sched : list Tick) :
  forallb is_space text = true ->
  let s' := facade (speak text) s in
  speech_queue s' = speech_queue s /\
  trace (world s') = trace (world s) /\
  escaped s' = escaped s /\
  trace (world (run E sched s')) = trace (world (run E sched s)) /\
  speech_queue (run E sched s') = speech_queue (run E sched s) /\
  (forall q, speech_thread s = Polling -> speech_queue s = Some text :: q ->
     trace (world (worker_step E s)) = trace (world s) /\
     speech_queue (worker_step E s) = q /\
     speech_thread (worker_step E s) = Idle).
Proof.
  intros Hb. cbv zeta. rewrite (speak_blank _ _ Hb).
  destruct (run_same_view_same_queue E sched
              (set_world (record_log (DEBUG, SpeakCalledWithEmptyText) (world s)) s) s)
    as [Hv Hq]; [apply same_view_relog; reflexivity | reflexivity |].
  repeat split; try reflexivity; try exact Hq; try apply Hv.
  all: rewrite (step_Polling E s H), H0, speakable_spec, Hb; reflexivity.
Qed.

(** C5.  From [Speaking] the worker always gets to [Reinitializing],
    in one step when [say] cannot be called or raises, in two, through
    [Playing], when [say] returns, whatever [runAndWait] then does.
    The step out of [Reinitializing] releases the engine held, if any,
    asks for a new one, keeps what it got, and only then is the worker
    back at the head of the loop. *)
Theorem speaking_leads_to_reinitializing (s : Sys) (text : pystr) :
  speech_thread s = Speaking text ->
  exists n after_error,
    (n = 1 \/ n = 2 /\ speech_thread (run E (works 1) s) = Playing text) /\
    let r := run E (works n) s in
    speech_thread r = Reinitializing after_error /\
    let s' := worker_step E r in
    speech_thread s' = Idle /\
    exists released ok rest,
      trace (world s') =
        trace (world r) ++ released ++ event Worker Init ok :: rest /\
      map call released =
        match worker_engine r with Some h => [EndLoop h] | None => [] end /\
      worker_engine s' =
        match eng_init E (trace (world r) ++ released) with
        | Ok e => e
        | Raise _ => None
        end.
Proof.
  intros Hs.
  assert (Hre : forall r b, speech_thread r = Reinitializing b ->
            let s' := worker_step E r in
            speech_thread s' = Idle /\
            exists released ok rest,
              trace (world s') =
                trace (world r) ++ released ++ event Worker Init ok :: rest /\
              map call released =
                match worker_engine r with Some h => [EndLoop h] | None => [] end /\
              worker_engine s' =
                match eng_init E (trace (world r) ++ released) with
                | Ok e => e
                | Raise _ => None
                end).
  { intros r b Hr. cbv zeta. rewrite (step_Reinitializing E r b Hr).
    pose proof (reinit_calls E (trace (world r)) (worker_engine r)) as Hc.
    destruct (reinit E (trace (world r)) (worker_engine r)) as [[[ok evs] we'] lines].
    destruct Hc as (released & ok' & rest & -> & Hrel & ->).
    split; [reflexivity|]. exists released, ok', rest. auto. }
  assert (H1 : run E (works 1) s = worker_step E s) by reflexivity.
  assert (H2 : run E (works 2) s = worker_step E (worker_step E s)) by reflexivity.
  pose proof (step_Speaking E s text Hs) as Hstep.
  destruct (worker_engine s) as [h|] eqn:Hwe.
  - destruct (eng_say E (trace (world s)) h text) as [[]|?] eqn:Hsay.
    + pose proof (step_Playing E (worker_step E s) text) as Hplay.
      rewrite Hstep in Hplay at 1. specialize (Hplay eq_refl).
      assert (Hwe' : worker_engine (worker_step E s) = Some h)
        by (rewrite Hstep; exact Hwe).
      rewrite Hwe' in Hplay.
      destruct (eng_runAndWait E (trace (world (worker_step E s))) h) as [[]|?].
      * exists 2, false. rewrite H1, H2. split.
        { right. split; [reflexivity|]. rewrite Hstep. reflexivity. }
        assert (Hr : speech_thread (worker_step E (worker_step E s)) =
                     Reinitializing false) by (rewrite Hplay; reflexivity).
        split; [exact Hr | exact (Hre _ _ Hr)].
      * exists 2, true. rewrite H1, H2. split.
        { right. split; [reflexivity|]. rewrite Hstep. reflexivity. }
        assert (Hr : speech_thread (worker_step E (worker_step E s)) =
                     Reinitializing true) by (rewrite Hplay; reflexivity).
        split; [exact Hr | exact (Hre _ _ Hr)].
    + exists 1, true. rewrite H1. split; [left; reflexivity|].
      assert (Hr : speech_thread (worker_step E s) = Reinitializing true)
        by (rewrite Hstep; reflexivity).
      split; [exact Hr | exact (Hre _ _ Hr)].
  - exists 1, true. rewrite H1. split; [left; reflexivity|].
    assert (Hr : speech_thread (worker_step E s) = Reinitializing true)
      by (rewrite Hstep; reflexivity).
    split; [exact Hr | exact (Hre _ _ Hr)].
Qed.

Lemma works_frame (n : nat) (s : Sys) :
  let s' := run E (works n) s in
  engine s' = engine s /\ is_running s' = is_running s /\
  caller s' = caller s /\ stops_returned s' = stops_returned s /\
  escaped s' = escaped s.
Proof.
  revert s. induction n as [|n IH]; intros s; cbv zeta.
  - rewrite run_nil. auto.
  - change (works (S n)) with (Work :: works n). rewrite run_cons.
    destruct (IH (tick E Work s)) as (-> & -> & -> & -> & ->).
    apply worker_step_frame.
Qed.

(** C7.  Every call of [stop()], the first or a later one, clears
    [is_running], puts the sentinel at the tail of the queue, and gets
    out of the join: at once when the thread is not alive, and at the
    latest when the join times out.  It then returns; no exception
    reaches the caller.  This holds however many steps the worker
    takes in between. *)
Theorem stop_always_returns (s : Sys) (a b : nat) :
  caller s = Ready ->
  let s1 := tick E (Invoke OStop) s in
  let s1' := run E (works a) s1 in
  let s2 := tick E Proceed s1' in
  let s2' := run E (works b) s2 in
  let s3 := run E [JoinTimeout; Proceed] s2' in
  is_running s1 = false /\ speech_queue s1 = speech_queue s /\
  speech_queue s2 = speech_queue s1' ++ [None] /\
  caller s2' = StopSignalled /\
  (is_alive s2' = false -> tick E Proceed s2' = s3) /\
  caller s3 = Ready /\
  stops_returned s3 = S (stops_returned s) /\
  escaped s3 = escaped s /\
  is_running s3 = false /\
  speech_thread s3 = speech_thread s2' /\
  trace (world s3) = trace (world s2').
Proof.
  intros Hc. cbv zeta.
  set (s1 := tick E (Invoke OStop) s).
  assert (F1 : is_running s1 = false /\ speech_queue s1 = speech_queue s /\
               caller s1 = StopFlagSet /\ stops_returned s1 = stops_returned s /\
               escaped s1 = escaped s).
  { subst s1. destruct_sys s. subst. step_cases E. repeat split. }
  destruct F1 as (R1 & Q1 & C1 & N1 & X1).
  set (s1' := run E (works a) s1).
  destruct (works_frame a s1) as (_ & R1' & C1' & N1' & X1'). fold s1' in R1', C1', N1', X1'.
  set (s2 := tick E Proceed s1').
  assert (F2 : is_running s2 = is_running s1' /\
               speech_queue s2 = speech_queue s1' ++ [None] /\
               caller s2 = StopSignalled /\ stops_returned s2 = stops_returned s1' /\
               escaped s2 = escaped s1').
  { subst s2. rewrite C1 in C1'. revert C1'. generalize s1'. intros s0.
    destruct_sys s0. intros ->. step_cases E. repeat split. }
  destruct F2 as (R2 & Q2 & C2 & N2 & X2).
  set (s2' := run E (works b) s2).
  destruct (works_frame b s2) as (_ & R2' & C2' & N2' & X2'). fold s2' in R2', C2', N2', X2'.
  assert (F3 : let s3 := run E [JoinTimeout; Proceed] s2' in
               (is_alive s2' = false -> tick E Proceed s2' = s3) /\
               caller s3 = Ready /\ stops_returned s3 = S (stops_returned s2') /\
               escaped s3 = escaped s2' /\ is_running s3 = is_running s2' /\
               speech_thread s3 = speech_thread s2' /\
               trace (world s3) = trace (world s2')).
  { rewrite C2 in C2'. revert C2'. generalize s2'. intros s0.
    rewrite !run_cons, run_nil.
    destruct_sys s0. intros ->. destruct t; step_cases E; repeat split; discriminate. }
  destruct F3 as (A3 & C3 & N3 & X3 & R3 & T3 & W3).
  repeat split; try assumption; congruence.
Qed.

(** With the thread ended, the queue only grows and the log announces
    no further utterance. *)
Lemma run_dead_quiet (sched : list Tick) (s : Sys) :
  is_alive s = false ->
  (exists more, speech_queue (run E sched s) = speech_queue s ++ more) /\
  attempted (log (world (run E sched s))) = attempted (log (world s)).
Proof.
  revert s. induction sched as [|t sched IH]; intros s Hd.
  - rewrite run_nil. split; [exists []; rewrite app_nil_r|]; reflexivity.
  - rewrite run_cons.
    assert (Ht : is_alive (tick E t s) = false /\
                 (exists more, speech_queue (tick E t s) = speech_queue s ++ more) /\
                 attempted (log (world (tick E t s))) = attempted (log (world s))).
    { destruct (run_dead E [t] s Hd) as (Ha & _). split; [exact Ha|].
      destruct t as [|op| |].
      - change (tick E Work s) with (worker_step E s). rewrite step_dead by exact Hd.
        split; [exists []; rewrite app_nil_r|]; reflexivity.
      - destruct (caller_tick E (Invoke op) s) as (_ & _ & _ & _ & Hl & Hq);
          [discriminate | auto].
      - destruct (caller_tick E Proceed s) as (_ & _ & _ & _ & Hl & Hq);
          [discriminate | auto].
      - destruct (caller_tick E JoinTimeout s) as (_ & _ & _ & _ & Hl & Hq);
          [discriminate | auto]. }
    destruct Ht as (Ha & (m1 & Hq1) & Hl1).
    destruct (IH _ Ha) as ((m2 & Hq2) & Hl2).
    split; [exists (m1 ++ m2); rewrite Hq2, Hq1, app_assoc; reflexivity|].
    congruence.
Qed.

(** C8.  If [init_engine()] fails when the thread starts, the thread
    function returns at once.  The worker never gets to the loop: in
    whatever follows it takes nothing off the queue, announces no
    utterance and never calls [say]. *)
Theorem failed_start_is_fatal (s : Sys) (sched : list Tick) :
  speech_thread s = Starting ->
  fst (init_engine E s) = Ok false ->
  let s' := tick E Work s in
  speech_thread s' = Stopped /\
  speech_queue s' = speech_queue s /\
  said (trace (world s')) = said (trace (world s)) /\
  let s'' := run E sched s' in
  speech_thread s'' = Stopped /\
  (exists more, speech_queue s'' = speech_queue s ++ more) /\
  said (trace (world s'')) = said (trace (world s)) /\
  attempted (log (world s'')) = attempted (log (world s)).
Proof.
  intros Hs Hfail. cbv zeta.
  change (tick E Work s) with (worker_step E s).
  assert (H : speech_thread (worker_step E s) = Stopped /\
              speech_queue (worker_step E s) = speech_queue s /\
              said (trace (world (worker_step E s))) = said (trace (world s)) /\
              attempted (log (world (worker_step E s))) = attempted (log (world s))).
  { rewrite (step_Starting E s Hs). rewrite init_engine_eq in Hfail.
    pose proof (reinit_events E (trace (world s)) (worker_engine s)) as Hev.
    destruct (reinit E (trace (world s)) (worker_engine s)) as [[[ok evs] we'] lines].
    destruct Hev as (_ & Hsaid & Hat & _).
    cbn in Hfail. injection Hfail as ->. cbn.
    rewrite said_app, !attempted_app, Hsaid, Hat. cbn. rewrite !app_nil_r. auto. }
  destruct H as (Ht & Hq & Hsaid & Hat).
  assert (Hd : is_alive (worker_step E s) = false)
    by (unfold is_alive; rewrite Ht; reflexivity).
  destruct (run_dead E sched _ Hd) as (_ & Hcalls & Ht').
  destruct (run_dead_quiet sched _ Hd) as (Hq' & Hat').
  repeat split; try assumption.
  - rewrite Ht'. exact Ht.
  - rewrite <- Hq. exact Hq'.
  - rewrite <- Hsaid. unfold said. rewrite Hcalls. reflexivity.
  - rewrite Hat'. exact Hat.
Qed.

(** The calls [__init__] makes before it looks at [voice_index]. *)
Definition facade_setup (rate : Z) (h : Handle) : History :=
  [ event Caller Init true;
    event Caller (SetProperty h "rate" (VInt rate)) true;
    event Caller (SetProperty h "volume" (VFloat 1)) true;
    event Caller (GetProperty h "voices") true ].

(** The engine lets [__init__] get that far: it hands out [h], takes
    the rate and the volume, and lists [voices]. *)
Definition engine_ready (rate : Z) (h : Handle) (voices : list Voice) : Prop :=
  eng_init E [] = Ok (Some h) /\
  eng_setProperty E (firstn 1 (facade_setup rate h)) h "rate" (VInt rate) = Ok tt /\
  eng_setProperty E (firstn 2 (facade_setup rate h)) h "volume" (VFloat 1) = Ok tt /\
  eng_getVoices E (firstn 3 (facade_setup rate h)) h = Ok voices.

(** C10.  With a [voice_index] at or beyond the number of voices,
    construction succeeds all the same: no voice is set on the engine,
    a warning is logged, and the object comes up as usual, with an
    empty queue, [is_running] set and the worker thread started. *)
Theorem voice_index_out_of_range
    (rate voice_index : Z) (h : Handle) (voices : list Voice) :
  engine_ready rate h voices ->
  (Z.of_nat (List.length voices) <= voice_index)%Z ->
  construct E rate voice_index =
  Ok {| world :=
          {| trace := facade_setup rate h;
             log := [(INFO, InitializingEngine); (INFO, SetSpeechRate rate);
                     (INFO, AvailableVoices (List.length voices))] ++
                    voice_lines 0 voices ++
                    [(WARNING, VoiceIndexNotAvailable voice_index);
                     (INFO, InitializedThreadStarted)] |};
        engine := h; speech_queue := []; is_running := true;
        speech_thread := Starting; worker_engine := None; caller := Ready;
        stops_returned := 0; escaped := 0 |}.
Proof.
  intros (H1 & H2 & H3 & H4) Hvi.
  apply Z.ltb_ge in Hvi.
  unfold facade_setup, event in *. cbn [firstn] in *.
  unfold construct, TextToSpeech, init_facade_engine, empty_world.
  unfold_py. unfold_sys. cbn.
  rewrite H1. cbn. rewrite H2. cbn. rewrite H3. cbn. rewrite H4. cbn.
  rewrite log_voices_eq. cbn. rewrite Hvi. cbn.
  rewrite <- !app_assoc. reflexivity.
Qed.
End FacadeAndWorkerClaims.

(** C1.  The rate given to [set_property] does not reach the engines
    the worker creates.  On an engine where every call succeeds:
    construct, [set_property("rate", 150)], [speak("hello")], and let
    the worker start, speak and reinitialize.  The facade engine is
    given 150; both engines the worker creates afterwards are given
    the constant 100 of [init_engine]. *)
Theorem set_property_rate_not_propagated :
  let s := run good_engine
             [Invoke (OSetProperty "rate" (VInt 150));
              Invoke (OSpeak (lit "hello"));
              Work; Work; Work; Work; Work; Work]
             (constructed good_engine 100 0) in
  construct good_engine 100 0 = Ok (constructed good_engine 100 0) /\
  speech_thread s = Idle /\
  said (trace (world s)) = [lit "hello"] /\
  In (event Caller (SetProperty 0 "rate" (VInt 150)) true) (trace (world s)) /\
  worker_calls (trace (world s)) =
    [Init; SetProperty 1 "rate" (VInt 100); SetProperty 1 "volume" (VFloat 1);
     GetProperty 1 "voices"; SetProperty 1 "voice" (VStr "voice/david");
     Say 1 (lit "hello"); RunAndWait 1; EndLoop 1;
     Init; SetProperty 2 "rate" (VInt 100); SetProperty 2 "volume" (VFloat 1);
     GetProperty 2 "voices"; SetProperty 2 "voice" (VStr "voice/david")] /\
  worker_settings "rate" (trace (world s)) = [VInt 100; VInt 100].
Proof.
  vm_compute. repeat split. tauto.
Qed.

(** The state in which [stop()] has just returned, on a timeout, while
    the worker is inside [runAndWait()] for "hello". *)
Definition stopped_while_playing : Sys :=
  run good_engine
    [Invoke (OSpeak (lit "hello")); Work; Work; Work; Work;
     Invoke OStop; Proceed; JoinTimeout]
    (constructed good_engine 100 0).

(** C2, as stated, fails.  [stop()] gives up the join after its
    timeout; here it has returned while the worker is still in
    [runAndWait()].  The worker is alive, and its next two steps make
    seven more calls to the engine. *)
Lemma stop_returns_while_worker_runs :
  construct good_engine 100 0 = Ok (constructed good_engine 100 0) /\
  stops_returned stopped_while_playing = 1 /\
  caller stopped_while_playing = Ready /\
  speech_thread stopped_while_playing = Playing (lit "hello") /\
  is_alive stopped_while_playing = true /\
  worker_calls (trace (world (run good_engine [Work; Work] stopped_while_playing))) =
    worker_calls (trace (world stopped_while_playing)) ++
    [RunAndWait 1; EndLoop 1; Init; SetProperty 2 "rate" (VInt 100);
     SetProperty 2 "volume" (VFloat 1); GetProperty 2 "voices";
     SetProperty 2 "voice" (VStr "voice/david")].
Proof. vm_compute. repeat split. Qed.

Section StopClaims.
Variable E : Engine.

(** C2, amended.  Once [stop()] has returned, the worker starts at
    most one more utterance, the one of the cycle it was in; if its
    thread had ended by then, it makes no further call to the engine;
    and in any case the thread ends within six more steps of its own. *)
Theorem worker_winds_down_after_stop
    (rate voice_index : Z) (s0 : Sys) (before after : list Tick) :
  construct E rate voice_index = Ok s0 ->
  let s := run E before s0 in
  0 < stops_returned s ->
  let s' := run E after s in
  List.length (said (trace (world s'))) <=
    S (List.length (said (trace (world s)))) /\
  (is_alive s = false ->
   worker_calls (trace (world s')) = worker_calls (trace (world s)) /\
   is_alive s' = false) /\
  (6 <= works_in after -> is_alive s' = false).
Proof.
  intros Hc s Hn s'.
  assert (Hr : is_running s = false) by (eapply stopped_flag; eauto).
  split; [|split].
  - pose proof (run_pending E after s Hr) as H. cbv zeta in H. fold s' in H.
    assert (pending (speech_thread s) <= 1) by (destruct (speech_thread s); cbn; lia).
    lia.
  - intros Hd. destruct (run_dead E after s Hd) as (Ha & Hw & _). auto.
  - intros Hw. apply steps_left_alive.
    pose proof (run_steps_left E after s Hr) as H. fold s' in H.
    pose proof (steps_left_bound (speech_thread s)). lia.
Qed.
End StopClaims.

Lemma worker_winds_down_after_stop_witness :
  construct good_engine 100 0 = Ok (constructed good_engine 100 0) /\
  0 < stops_returned stopped_while_playing /\
  let s' := run good_engine (works 6) stopped_while_playing in
  List.length (said (trace (world s'))) <=
    S (List.length (said (trace (world stopped_while_playing)))) /\
  (is_alive stopped_while_playing = false ->
   worker_calls (trace (world s')) =
     worker_calls (trace (world stopped_while_playing)) /\
   is_alive s' = false) /\
  (6 <= works_in (works 6) -> is_alive s' = false).
Proof.
  split; [reflexivity|]. split; [vm_compute; lia|].
  apply (worker_winds_down_after_stop good_engine 100 0
           (constructed good_engine 100 0)
           [Invoke (OSpeak (lit "hello")); Work; Work; Work; Work;
            Invoke OStop; Proceed; JoinTimeout]
           (works 6)).
  - reflexivity.
  - vm_compute. lia.
Defined.

(** The schedule in which the caller calls [speak] on each text in
    turn and the worker does not run. *)
Definition speak_all (ts : list pystr) : list Tick :=
  map (fun text => Invoke (OSpeak text)) ts.

(** Whether the thread is in the [while] loop. *)
Definition in_loop (t : WorkerState) : bool :=
  match t with
  | Idle | Polling | Speaking _ | Playing _ | Reinitializing _ => true
  | _ => false
  end.

Section QueueClaims.
Variable E : Engine.

(** What [speak] does to the state: a log line that announces no
    utterance, and possibly an item at the tail of the queue. *)
Lemma speak_effect (text : pystr) (s : Sys) :
  exists r more,
    facade (speak text) s =
      set_queue (speech_queue s ++ more) (set_world (record_log r (world s)) s) /\
    attempted [r] = [] /\
    more = if speakable text then [Some text] else [].
Proof.
  unfold facade, speak, speakable.
  destruct (truthy text); destruct (truthy (strip text)); cbn [negb orb andb].
  1: exists (DEBUG, QueueingText text), [Some text].
  2-4: exists (DEBUG, SpeakCalledWithEmptyText), [].
  all: destruct_sys s; unfold_py; unfold_sys; cbn; rewrite ?app_nil_r;
    repeat split; reflexivity.
Qed.





(** C9.  After [stop()] has returned, a call of [speak] raises
    nothing and changes nothing the engine can see: whatever the two
    threads do afterwards, the calls made to the engine and the
    utterances the worker sets out on are those of the run without
    that call.  The text is not spoken. *)
Theorem speak_after_stop_is_silent
    (rate voice_index : Z) (s0 : Sys) (before after : list Tick) (text : pystr) :
  construct E rate voice_index = Ok s0 ->
  let s := run E before s0 in
  0 < stops_returned s ->
  let s' := facade (speak text) s in
  escaped s' = escaped s /\
  escaped (run E after s') = escaped s /\
  trace (world (run E after s')) = trace (world (run E after s)) /\
  attempted (log (world (run E after s'))) =
    attempted (log (world (run E after s))).
Proof.
  intros Hc s Hn s'.
  pose proof (run_stop_inv E before s0 (constructed_stop_inv E rate voice_index s0 Hc))
    as [Hflag Hsent].
  fold s in Hflag, Hsent.
  destruct (speak_effect text s) as (r & more & He & Hr & _). fold s' in He.
  assert (Hv : same_view s s').
  { rewrite He. destruct_sys s. constructor; cbn; try reflexivity.
    rewrite attempted_app, Hr, app_nil_r. reflexivity. }
  assert (Hb : behind_sentinel s s').
  { split; [apply Hflag; right; exact Hn|]. intros Hp.
    destruct (in_split _ _ (Hsent (or_intror Hn) Hp)) as (ahead & rest & Hq).
    exists ahead, rest, (rest ++ more). split; [exact Hq|].
    rewrite He. cbn. rewrite Hq, <- app_assoc. reflexivity. }
  pose proof (run_behind_sentinel E after s s' Hv Hb) as Hv'.
  repeat split.
  - symmetry. apply Hv.
  - rewrite run_escaped. symmetry. apply Hv.
  - symmetry. apply Hv'.
  - symmetry. apply Hv'.
Qed.
End QueueClaims.

(** Three texts queued before the worker has run, on an engine that
    the worker can acquire when it starts and not after that. *)
Definition three_queued_engine_lost : Sys :=
  run two_shot_engine (speak_all [lit "a"; lit "b"; lit "c"])
    (constructed two_shot_engine 100 0).

(** C3, as stated, fails.  All three texts are on the queue before
    the worker takes anything off it, and the worker starts up.  After
    "a" the worker cannot get a new engine; it goes on without one,
    takes "b" and "c" off the queue and announces them, and [say] is
    never called on them.  The flag is still set and the worker is
    still in its loop: the texts are dropped, not left for a
    shutdown. *)
Lemma speak_drops_texts_without_engine :
  construct two_shot_engine 100 0 = Ok (constructed two_shot_engine 100 0) /\
  speech_thread three_queued_engine_lost = Starting /\
  speech_queue three_queued_engine_lost = map Some [lit "a"; lit "b"; lit "c"] /\
  fst (init_engine two_shot_engine three_queued_engine_lost) = Ok true /\
  let s := run two_shot_engine (works 16) three_queued_engine_lost in
  attempted (log (world s)) = [lit "a"; lit "b"; lit "c"] /\
  said (trace (world s)) = [lit "a"] /\
  speech_queue s = [] /\
  worker_engine s = None /\
  is_running s = true /\
  in_loop (speech_thread s) = true.
Proof. vm_compute. repeat split. Qed.

(** The texts of the [speak] calls of a schedule that [speak] puts on
    the queue, in the order of the calls. *)
Definition requested (sched : list Tick) : list pystr :=
  flat_map (fun t => match t with
                     | Invoke (OSpeak text) => if speakable text then [text] else []
                     | _ => []
                     end) sched.

(** A schedule in which the caller only calls [speak]. *)
Definition speak_or_work (t : Tick) : Prop :=
  match t with
  | Work | Invoke (OSpeak _) => True
  | _ => False
  end.

(** The steps the worker has ahead of it until the queue is empty and
    it is back at the loop test or polling. *)
Definition todo (s : Sys) : nat :=
  match speech_thread s with
  | Starting => 1 + 5 * List.length (speech_queue s)
  | Idle => 5 * List.length (speech_queue s)
  | Polling => 5 * List.length (speech_queue s) - 1
  | Speaking _ => 5 * List.length (speech_queue s) + 3
  | Playing _ => 5 * List.length (speech_queue s) + 2
  | Reinitializing _ => 5 * List.length (speech_queue s) + 1
  | _ => 0
  end.

Section Serving.
Variable E : Engine.
Variable tr0 : History.
Hypothesis Hacq : acquirable E.
Hypothesis Hup : fst (fst (fst (reinit E tr0 None))) = true.

(** The worker is serving the queue with an engine in hand: the flag
    is set, the queue holds speakable texts and no sentinel, the
    texts announced and the texts queued are the texts requested, and
    every text announced has been passed to [say], but for the one
    announced last while the worker is about to say it. *)
Definition serving (req : list pystr) (s : Sys) : Prop :=
  is_running s = true /\ caller s = Ready /\
  (exists qs, speech_queue s = map Some qs /\
     Forall (fun text => speakable text = true) qs /\
     attempted (log (world s)) ++ qs = req) /\
  attempted (log (world s)) =
    said (trace (world s)) ++
    match speech_thread s with Speaking text => [text] | _ => [] end /\
  match speech_thread s with
  | Starting => worker_engine s = None /\ trace (world s) = tr0
  | Idle | Polling | Speaking _ | Playing _ | Reinitializing _ =>
      worker_engine s <> None
  | Stopping | Stopped | Crashed => False
  end.

Lemma serving_work (req : list pystr) (s : Sys) :
  serving req s ->
  serving req (worker_step E s) /\ todo (worker_step E s) <= pred (todo s).
Proof.
  unfold serving, todo. intros (Hr & Hc & (qs & Hq & Hs & Hreq) & Hsaid & Ht).
  destruct (speech_thread s) eqn:Hth; try contradiction.
  - (* Starting *)
    destruct Ht as [Hwe Htr].
    rewrite (step_Starting E s Hth), Hwe, Htr.
    pose proof (reinit_events E tr0 None) as Hev.
    pose proof (reinit_acquirable E tr0 None Hacq) as Hne.
    destruct (reinit E tr0 None) as [[[ok evs] we'] lines].
    cbn in Hup. subst ok. destruct Hev as (_ & Hsd & Hat & _).
    destruct_sys s. subst. unfold_sys. cbn. observe.
    rewrite Hsd, Hat, ?app_nil_r. cbn.
    split; [|lia].
    split; [reflexivity|]. split; [reflexivity|].
    split; [exists qs; auto|]. split; [rewrite app_nil_r in Hsaid; rewrite ?app_nil_r; exact Hsaid | exact Hne].
  - (* Idle *)
    rewrite (step_Idle E s Hth), Hr.
    destruct_sys s. subst. unfold_sys. cbn.
    split; [|lia].
    split; [reflexivity|]. split; [reflexivity|].
    split; [exists qs; auto|]. split; assumption.
  - (* Polling *)
    rewrite (step_Polling E s Hth), Hq.
    destruct qs as [|text qs]; cbn [map].
    + destruct_sys s. subst. unfold_sys. cbn.
      split; [|lia].
      split; [reflexivity|]. split; [reflexivity|].
      split; [exists []; auto|]. split; assumption.
    + inversion Hs as [|? ? Htext Hrest]; subst. rewrite Htext.
      destruct_sys s. subst. unfold_sys. cbn. observe. cbn in *.
      rewrite length_map.
      split; [|lia].
      split; [reflexivity|]. split; [reflexivity|].
      split; [exists qs; rewrite <- app_assoc; auto|].
      split; [rewrite app_nil_r in Hsaid; rewrite Hsaid; reflexivity | assumption].
  - (* Speaking *)
    rewrite (step_Speaking E s _ Hth).
    destruct (worker_engine s) as [h|] eqn:Hwe; [|contradiction].
    destruct (eng_say E (trace (world s)) h text) as [[]|e].
    all: destruct_sys s; subst; unfold_sys; cbn; observe; cbn in *.
    all: split; [|lia].
    all: split; [reflexivity|]; split; [reflexivity|].
    all: split; [exists qs; auto|]; split; [assumption | discriminate].
  - (* Playing *)
    rewrite (step_Playing E s _ Hth).
    destruct (worker_engine s) as [h|] eqn:Hwe; [|contradiction].
    destruct (eng_runAndWait E (trace (world s)) h) as [[]|e].
    all: destruct_sys s; subst; unfold_sys; cbn; observe; cbn in *.
    all: split; [|lia].
    all: split; [reflexivity|]; split; [reflexivity|].
    all: split; [exists qs; rewrite ?app_nil_r in *; auto|]; split;
      [rewrite ?app_nil_r in *; assumption | discriminate].
  - (* Reinitializing *)
    rewrite (step_Reinitializing E s _ Hth).
    pose proof (reinit_events E (trace (world s)) (worker_engine s)) as Hev.
    pose proof (reinit_acquirable E (trace (world s)) (worker_engine s) Hacq) as Hne.
    destruct (reinit E (trace (world s)) (worker_engine s)) as [[[ok evs] we'] lines].
    destruct Hev as (_ & Hsd & Hat & _).
    destruct_sys s. subst. unfold_sys. cbn. observe.
    rewrite Hsd, Hat, ?app_nil_r.
    assert (Hw : attempted (if after_error || ok then []
                            else [(WARNING, ReinitFailedContinuing)]) = [])
      by (destruct (after_error || ok); reflexivity).
    rewrite Hw, ?app_nil_r. cbn in *.
    split; [|lia].
    split; [reflexivity|]. split; [reflexivity|].
    split; [exists qs; auto|]. split; [rewrite app_nil_r in Hsaid; exact Hsaid | exact Hne].
Qed.

Lemma serving_speak (req : list pystr) (text : pystr) (s : Sys) :
  serving req s ->
  serving (req ++ if speakable text then [text] else [])
    (tick E (Invoke (OSpeak text)) s).
Proof.
  unfold serving. intros (Hr & Hc & (qs & Hq & Hs & Hreq) & Hsaid & Ht).
  assert (Hk : tick E (Invoke (OSpeak text)) s = facade (speak text) s)
    by (unfold tick; rewrite Hc; reflexivity).
  destruct (speak_effect text s) as (r & more & He & Hlog & Hm).
  rewrite Hk, He. clear Hk He.
  destruct_sys s. subst. unfold_sys. cbn.
  rewrite attempted_app, Hlog, ?app_nil_r.
  split; [reflexivity|]. split; [reflexivity|].
  split; [|split; assumption].
  exists (qs ++ if speakable text then [text] else []).
  rewrite map_app, Forall_app, app_assoc.
  destruct (speakable text) eqn:Htext; cbn; repeat split; auto.
Qed.

Lemma serving_run (sched : list Tick) (req : list pystr) (s : Sys) :
  Forall speak_or_work sched ->
  serving req s -> serving (req ++ requested sched) (run E sched s).
Proof.
  revert req s. induction sched as [|t sched IH]; intros req s Hf Hs.
  - rewrite run_nil. cbn. rewrite app_nil_r. exact Hs.
  - inversion Hf as [|? ? Ht Hrest]; subst. rewrite run_cons.
    unfold requested. cbn [flat_map]. fold (requested sched).
    rewrite app_assoc. apply IH; [exact Hrest|].
    destruct t as [|[text| | | |]| |]; try contradiction.
    + rewrite app_nil_r. apply serving_work, Hs.
    + apply serving_speak, Hs.
Qed.

(** Given the steps it has ahead of it, the worker empties the queue. *)
Lemma serving_works (n : nat) (req : list pystr) (s : Sys) :
  serving req s -> todo s <= n ->
  serving req (run E (works n) s) /\ todo (run E (works n) s) = 0.
Proof.
  revert s. induction n as [|n IH]; intros s Hs Hn.
  - cbn [works repeat]. rewrite run_nil. split; [exact Hs | lia].
  - change (works (S n)) with (Work :: works n). rewrite run_cons.
    change (tick E Work s) with (worker_step E s).
    destruct (serving_work req s Hs) as [Hs' Hn'].
    apply IH; [exact Hs' | lia].
Qed.

Lemma serving_todo (req : list pystr) (s : Sys) :
  serving req s -> todo s <= 3 + 5 * List.length req.
Proof.
  unfold serving, todo. intros (_ & _ & (qs & Hq & _ & Hreq) & _ & _).
  rewrite Hq, length_map. subst req. rewrite length_app.
  destruct (speech_thread s); lia.
Qed.

Lemma serving_done (req : list pystr) (s : Sys) :
  serving req s -> todo s = 0 ->
  attempted (log (world s)) = req /\ said (trace (world s)) = req /\
  speech_queue s = [] /\ in_loop (speech_thread s) = true.
Proof.
  unfold serving, todo. intros (_ & _ & (qs & Hq & _ & Hreq) & Hsaid & Ht) Hn.
  rewrite Hq, length_map in Hn.
  destruct (speech_thread s); try contradiction; try lia.
  all: destruct qs; [|cbn in Hn; lia].
  all: rewrite app_nil_r in *; subst req; cbn; auto.
Qed.
End Serving.

Lemma requested_speak_all (ts : list pystr) :
  Forall (fun text => speakable text = true) ts -> requested (speak_all ts) = ts.
Proof.
  induction 1 as [|text ts Htext _ IH]; [reflexivity|].
  unfold requested, speak_all in *. cbn. rewrite Htext, IH. reflexivity.
Qed.

Section FifoClaim.
Variable E : Engine.

(** C3, amended.  Whatever way the calls of [speak] and the steps of
    the worker are interleaved, and so in particular when all the
    texts are queued before the worker takes one off the queue: if
    the worker came up and [pyttsx3.init()] yields an engine whenever
    the worker asks for one, then, given three steps and five more
    for each text queued, the worker has announced the texts that
    [speak] queued and has called [say] on them, in exactly the order
    of the calls (none left out, none twice, none out of place), the
    queue is empty, and the worker is still in its loop.  [say],
    [runAndWait] and [endLoop] may fail at any time. *)
Theorem speak_is_fifo
    (rate voice_index : Z) (s0 : Sys) (sched : list Tick) (n : nat) :
  construct E rate voice_index = Ok s0 ->
  fst (init_engine E s0) = Ok true ->
  acquirable E ->
  Forall speak_or_work sched ->
  3 + 5 * List.length (requested sched) <= n ->
  let s1 := run E sched s0 in
  let s2 := run E (works n) s1 in
  attempted (log (world s2)) = requested sched /\
  said (trace (world s2)) = requested sched /\
  speech_queue s2 = [] /\
  in_loop (speech_thread s2) = true.
Proof.
  intros Hc Hup Hacq Hf Hn s1 s2.
  destruct (construct_fresh E rate voice_index s0 Hc)
    as (C0 & _ & _ & T0 & Q0 & R0 & W0 & K0 & A0).
  rewrite init_engine_eq, W0 in Hup.
  assert (Hup' : fst (fst (fst (reinit E (trace (world s0)) None))) = true).
  { destruct (reinit E (trace (world s0)) None) as [[[ok evs] we'] lines].
    cbn in Hup. injection Hup as ->. reflexivity. }
  assert (H0 : serving (trace (world s0)) [] s0).
  { unfold serving. rewrite R0, C0, T0, A0, Q0. unfold said. rewrite K0. cbn.
    repeat split; auto. exists []. repeat split; auto. }
  pose proof (serving_run E _ Hacq Hup' sched [] s0 Hf H0) as H1.
  cbn [app] in H1. fold s1 in H1.
  pose proof (serving_todo _ _ _ H1) as Ht.
  destruct (serving_works E _ Hacq Hup' n _ s1 H1) as [H2 Hz]; [lia|].
  fold s2 in H2, Hz.
  exact (serving_done _ _ _ H2 Hz).
Qed.
End FifoClaim.

(** * Concrete runs *)

Lemma good_engine_acquirable : acquirable good_engine.
Proof. intros hist. eexists. reflexivity. Defined.

Lemma failing_say_engine_acquirable (k : nat) : acquirable (failing_say_engine k).
Proof. intros hist. eexists. reflexivity. Defined.

Definition abc : list pystr := [lit "a"; lit "b"; lit "c"].

Lemma abc_speakable : Forall (fun text => speakable text = true) abc.
Proof. repeat constructor. Defined.

Lemma blank_speak_is_noop_witness :
  forallb is_space (lit "   ") = true /\
  let s := constructed good_engine 100 0 in
  let s' := facade (speak (lit "   ")) s in
  speech_queue s' = speech_queue s /\
  trace (world (run good_engine (works 3) s')) =
  trace (world (run good_engine (works 3) s)).
Proof.
  split; [reflexivity|].
  pose proof (blank_speak_is_noop good_engine (lit "   ")
                (constructed good_engine 100 0) (works 3) eq_refl) as H.
  cbv zeta in *. destruct H as (H1 & _ & _ & H4 & _).
  split; [exact H1 | exact H4].
Defined.

(** The worker has taken "hello" off the queue and is about to call
    [say]. *)
Definition about_to_say : Sys :=
  run good_engine [Invoke (OSpeak (lit "hello")); Work; Work; Work]
    (constructed good_engine 100 0).

Lemma speaking_leads_to_reinitializing_witness :
  speech_thread about_to_say = Speaking (lit "hello") /\
  exists n after_error,
    speech_thread (run good_engine (works n) about_to_say) =
      Reinitializing after_error /\
    speech_thread
      (worker_step good_engine (run good_engine (works n) about_to_say)) = Idle.
Proof.
  split; [vm_compute; reflexivity|].
  destruct (speaking_leads_to_reinitializing good_engine about_to_say (lit "hello"))
    as (n & b & _ & Hr & Hi & _); [vm_compute; reflexivity|].
  exists n, b. split; assumption.
Defined.

(** A second call of [stop()], made after the first has returned. *)
Lemma stop_always_returns_witness :
  let s := stopped_while_playing in
  let s1 := tick good_engine (Invoke OStop) s in
  let s2 := tick good_engine Proceed (run good_engine (works 1) s1) in
  let s3 := run good_engine [JoinTimeout; Proceed]
              (run good_engine (works 1) s2) in
  caller s = Ready /\ stops_returned s = 1 /\
  caller s3 = Ready /\ stops_returned s3 = S (stops_returned s) /\
  escaped s3 = escaped s /\ is_running s3 = false.
Proof.
  cbv zeta.
  assert (Hc : caller stopped_while_playing = Ready) by (vm_compute; reflexivity).
  split; [exact Hc|]. split; [vm_compute; reflexivity|].
  pose proof (stop_always_returns good_engine stopped_while_playing 1 1 Hc) as H.
  cbv zeta in H.
  destruct H as (_ & _ & _ & _ & _ & H1 & H2 & H3 & H4 & _).
  split; [exact H1|]. split; [exact H2|]. split; [exact H3 | exact H4].
Defined.

Lemma failed_start_is_fatal_witness :
  let s := constructed one_shot_engine 100 0 in
  let sched := [Invoke (OSpeak (lit "hello")); Work; Work] in
  speech_thread s = Starting /\
  fst (init_engine one_shot_engine s) = Ok false /\
  speech_thread (run one_shot_engine sched (tick one_shot_engine Work s)) = Stopped /\
  said (trace (world (run one_shot_engine sched (tick one_shot_engine Work s)))) =
    said (trace (world s)).
Proof.
  cbv zeta.
  split; [vm_compute; reflexivity|]. split; [vm_compute; reflexivity|].
  pose proof (failed_start_is_fatal one_shot_engine
                (constructed one_shot_engine 100 0)
                [Invoke (OSpeak (lit "hello")); Work; Work]) as H.
  cbv zeta in H.
  destruct H as (_ & _ & _ & H1 & _ & H2 & _);
    [vm_compute; reflexivity | vm_compute; reflexivity |].
  split; [exact H1 | exact H2].
Defined.

Lemma voice_index_out_of_range_witness :
  engine_ready good_engine 100 0 two_voices /\
  (Z.of_nat (List.length two_voices) <= 5)%Z /\
  exists s, construct good_engine 100 5 = Ok s /\
            speech_thread s = Starting /\ is_running s = true /\
            speech_queue s = [] /\
            In (WARNING, VoiceIndexNotAvailable 5) (log (world s)).
Proof.
  assert (Hr : engine_ready good_engine 100 0 two_voices)
    by (repeat split).
  assert (Hv : (Z.of_nat (List.length two_voices) <= 5)%Z)
    by (vm_compute; discriminate).
  split; [exact Hr|]. split; [exact Hv|].
  eexists. split; [exact (voice_index_out_of_range good_engine 100 5 0 two_voices Hr Hv)|].
  vm_compute. tauto.
Defined.

(** Texts queued while the worker starts up and begins to poll. *)
Definition speaks_between_steps : list Tick :=
  [Invoke (OSpeak (lit "a")); Work; Invoke (OSpeak (lit "  "));
   Invoke (OSpeak (lit "b")); Work; Invoke (OSpeak (lit "c"))].

Lemma speak_is_fifo_witness :
  let s0 := constructed (failing_say_engine 1) 100 0 in
  construct (failing_say_engine 1) 100 0 = Ok s0 /\
  fst (init_engine (failing_say_engine 1) s0) = Ok true /\
  acquirable (failing_say_engine 1) /\
  Forall speak_or_work speaks_between_steps /\
  3 + 5 * List.length (requested speaks_between_steps) <= 18 /\
  requested speaks_between_steps = abc /\
  said (trace (world (run (failing_say_engine 1) (works 18)
                        (run (failing_say_engine 1) speaks_between_steps s0)))) =
    requested speaks_between_steps.
Proof.
  cbv zeta.
  assert (Hc : construct (failing_say_engine 1) 100 0 =
               Ok (constructed (failing_say_engine 1) 100 0))
    by (vm_compute; reflexivity).
  assert (Hup : fst (init_engine (failing_say_engine 1)
                       (constructed (failing_say_engine 1) 100 0)) = Ok true)
    by (vm_compute; reflexivity).
  assert (Hf : Forall speak_or_work speaks_between_steps)
    by (repeat constructor).
  assert (Hn : 3 + 5 * List.length (requested speaks_between_steps) <= 18)
    by (vm_compute; lia).
  pose proof (speak_is_fifo (failing_say_engine 1) 100 0
                (constructed (failing_say_engine 1) 100 0)
                speaks_between_steps 18 Hc Hup
                (failing_say_engine_acquirable 1) Hf Hn) as H.
  cbv zeta in H. destruct H as (_ & H2 & _).
  split; [exact Hc|]. split; [exact Hup|].
  split; [exact (failing_say_engine_acquirable 1)|].
  split; [exact Hf|]. split; [exact Hn|].
  split; [vm_compute; reflexivity | exact H2].
Defined.

(** Four texts queued and the worker up, on an engine whose first
    three calls of [say] raise. *)
Definition four_texts : list pystr := [lit "one"; lit "two"; lit "three"; lit "four"].

Definition three_failures_ahead : Sys :=
  run (failing_say_engine 3) (speak_all four_texts ++ [Work])
    (constructed (failing_say_engine 3) 100 0).


(** Three synthesis errors in a row, then a success: the worker goes
    through all four texts, the first three end in the error handler
    and the fourth is spoken to the end. *)
Example three_failures_then_success :
  let s' := run (failing_say_engine 3) (works 20) three_failures_ahead in
  speech_thread s' = Idle \/ speech_thread s' = Polling /\
  said (trace (world s')) = four_texts /\
  map succeeded (filter is_say_event (trace (world s'))) =
    [false; false; false; true] /\
  filter (fun r => match snd r with FinishedSpeaking _ => true | _ => false end)
         (log (world s')) = [(INFO, FinishedSpeaking (lit "four"))].
Proof. vm_compute. tauto. Qed.

(** The schedule that leads to [stopped_while_playing]. *)
Definition stop_while_playing : list Tick :=
  [Invoke (OSpeak (lit "hello")); Work; Work; Work; Work;
   Invoke OStop; Proceed; JoinTimeout].

Lemma speak_after_stop_is_silent_witness :
  let s0 := constructed good_engine 100 0 in
  let s := run good_engine stop_while_playing s0 in
  let s' := facade (speak (lit "late")) s in
  construct good_engine 100 0 = Ok s0 /\
  0 < stops_returned s /\
  speech_queue s' = [None; Some (lit "late")] /\
  escaped (run good_engine (works 6) s') = escaped s /\
  trace (world (run good_engine (works 6) s')) =
    trace (world (run good_engine (works 6) s)).
Proof.
  cbv zeta.
  assert (Hc : construct good_engine 100 0 = Ok (constructed good_engine 100 0))
    by (vm_compute; reflexivity).
  assert (Hn : 0 < stops_returned
                     (run good_engine stop_while_playing (constructed good_engine 100 0)))
    by (vm_compute; lia).
  pose proof (speak_after_stop_is_silent good_engine 100 0
                (constructed good_engine 100 0) stop_while_playing
                (works 6) (lit "late") Hc Hn) as H.
  cbv zeta in H. destruct H as (_ & H1 & H2 & _).
  split; [exact Hc|]. split; [exact Hn|].
  split; [vm_compute; reflexivity|].
  split; [exact H1 | exact H2].
Defined.

(** The scenario of the specification: construct, [speak("hello")],
    let the worker speak and reinitialize, [stop()].  The worker makes
    one [say] and [runAndWait] on "hello", then releases its engine
    and creates the next, and after [stop()] releases that one and
    creates no other. *)
Example hello_then_stop :
  let s := run good_engine
             ([Invoke (OSpeak (lit "hello"))] ++ works 6 ++
              [Invoke OStop; Proceed] ++ works 3 ++ [Proceed])
             (constructed good_engine 100 0) in
  speech_thread s = Stopped /\ stops_returned s = 1 /\ caller s = Ready /\
  skipn 5 (worker_calls (trace (world s))) =
    [Say 1 (lit "hello"); RunAndWait 1; EndLoop 1;
     Init; SetProperty 2 "rate" (VInt 100); SetProperty 2 "volume" (VFloat 1);
     GetProperty 2 "voices"; SetProperty 2 "voice" (VStr "voice/david");
     EndLoop 2].
Proof. vm_compute. tauto. Qed.

(** Construction fails, with the engine's exception, when the engine
    cannot be acquired. *)
Example construction_fails_without_engine :
  construct dead_engine 100 0 = Raise EngineError.
Proof. vm_compute. reflexivity. Qed.


(** * Further properties of the facade *)

Lemma not_all_space (text : pystr) :
  negb (forallb is_space text) = existsb (fun c => negb (is_space c)) text.
Proof.
  induction text as [|c text IH]; [reflexivity|].
  cbn. rewrite negb_andb, IH. reflexivity.
Qed.

(** X1.  [speak] puts a text on the queue exactly when the text has a
    character that is not white space, and then the text goes on the
    queue as it was given, white space and all; it calls nothing on
    the engine and raises nothing. *)
Theorem speak_enqueues_text_as_given (text : pystr) (s : Sys) :
  let s' := facade (speak text) s in
  speech_queue s' =
    speech_queue s ++
    (if existsb (fun c => negb (is_space c)) text then [Some text] else []) /\
  trace (world s') = trace (world s) /\
  escaped s' = escaped s /\
  is_running s' = is_running s /\
  speech_thread s' = speech_thread s.
Proof.
  cbv zeta. rewrite <- not_all_space, <- speakable_spec.
  unfold facade, speak, speakable.
  destruct_sys s.
  destruct (truthy text); destruct (truthy (strip text)); cbn [negb orb andb];
    unfold_py; unfold_sys; cbn; rewrite ?app_nil_r; repeat split; reflexivity.
Qed.

Section FacadeProperties.
Variable E : Engine.

(** X2.  [speak_blocking] and [speak] leave the same queue, and whatever
    the two threads do afterwards, the same calls reach the engine
    and the same utterances are announced: the two differ in their
    log line and in the caller's pause only. *)
Theorem speak_blocking_queues_like_speak
    (text : pystr) (s : Sys) (sched : list Tick) :
  let a := facade (speak text) s in
  let b := facade (speak_blocking text) s in
  speech_queue a = speech_queue b /\
  speech_queue (run E sched a) = speech_queue (run E sched b) /\
  trace (world (run E sched a)) = trace (world (run E sched b)) /\
  attempted (log (world (run E sched a))) =
    attempted (log (world (run E sched b))).
Proof.
  cbv zeta.
  assert (H : same_view (facade (speak text) s) (facade (speak_blocking text) s) /\
              speech_queue (facade (speak text) s) =
              speech_queue (facade (speak_blocking text) s)).
  { unfold facade, speak, speak_blocking, speakable. destruct_sys s.
    destruct (truthy text); destruct (truthy (strip text)); cbn [negb orb andb];
      unfold_py; unfold_sys; cbn;
      (split; [constructor; cbn; observe; reflexivity | reflexivity]). }
  destruct H as [Hv Hq].
  destruct (run_same_view_same_queue E sched _ _ Hv Hq) as [Hv' Hq'].
  split; [exact Hq|]. split; [exact Hq'|]. split; apply Hv'.
Qed.

(** X3.  [set_property] makes one call, [setProperty] on the facade's own
    engine, and never lets its failure through: it logs the change or
    the error and returns.  The queue, the flag, the worker thread and
    the worker's engine are not touched. *)
Theorem set_property_swallows_errors (name : string) (v : value) (s : Sys) :
  let s' := facade (set_property E name v) s in
  let answer := eng_setProperty E (trace (world s)) (engine s) name v in
  escaped s' = escaped s /\
  trace (world s') =
    trace (world s) ++
    [event Caller (SetProperty (engine s) name v) (is_ok answer)] /\
  log (world s') =
    log (world s) ++
    [if is_ok answer then (INFO, SetPropertyTo name v)
     else (ERROR, ErrorSettingProperty name)] /\
  speech_queue s' = speech_queue s /\ is_running s' = is_running s /\
  speech_thread s' = speech_thread s /\ worker_engine s' = worker_engine s /\
  engine s' = engine s.
Proof.
  cbv zeta. destruct_sys s. step_cases E; repeat split; reflexivity.
Qed.

(** X4.  [get_property] returns the engine's value, or [None] when the
    engine raises; it never raises itself, and but for the call it
    records it leaves the object as it was. *)
Theorem get_property_returns_none_on_error (name : string) (s : Sys) :
  let answer := eng_getProperty E (trace (world s)) (engine s) name in
  fst (get_property E name s) =
    Ok (match answer with Ok v => Some v | Raise _ => None end) /\
  let s' := snd (get_property E name s) in
  trace (world s') =
    trace (world s) ++ [event Caller (GetProperty (engine s) name) (is_ok answer)] /\
  speech_queue s' = speech_queue s /\ is_running s' = is_running s /\
  speech_thread s' = speech_thread s /\ worker_engine s' = worker_engine s /\
  caller s' = caller s /\ escaped s' = escaped s.
Proof.
  cbv zeta. destruct_sys s. step_cases E; repeat split; reflexivity.
Qed.
End FacadeProperties.

(** ** Construction *)

(** Case analysis for [__init__]: on every answer of the engine it
    waits for, on the comparison of [voice_index] and on the lookup
    of the voice. *)
Ltac construct_cases E :=
  unfold_py;
  repeat (unfold_sys; cbn;
          first [ rewrite log_voices_eq
                | match goal with
                  | H : ?x = _ |- context [match ?x with _ => _ end] => rewrite H
                  | H : ?x = _ |- context [if ?x then _ else _] => rewrite H
                  | |- context [eng_getVoices E ?h ?a] =>
                      destruct (eng_getVoices E h a) as [?|?] eqn:?
                  | |- context [(?a <? ?b)%Z] => destruct (a <? b)%Z eqn:?
                  | |- context [py_index ?l ?i] => destruct (py_index l i) eqn:?
                  end
                | break_engine E ]);
  unfold_sys; cbn.

Section ConstructionProperties.
Variable E : Engine.

(** The object [__init__] returns when [voices[voice_index]] is [v]. *)
Definition constructed_with_voice
    (rate : Z) (h : Handle) (voices : list Voice) (v : Voice) : Sys :=
  {| world :=
       {| trace := facade_setup rate h ++
                   [event Caller (SetProperty h "voice" (VStr (voice_id v))) true];
          log := [(INFO, InitializingEngine); (INFO, SetSpeechRate rate);
                  (INFO, AvailableVoices (List.length voices))] ++
                 voice_lines 0 voices ++
                 [(INFO, UsingVoice (voice_name v));
                  (INFO, InitializedThreadStarted)] |};
     engine := h; speech_queue := []; is_running := true;
     speech_thread := Starting; worker_engine := None; caller := Ready;
     stops_returned := 0; escaped := 0 |}.

Lemma construct_with_voice
    (rate voice_index : Z) (h : Handle) (voices : list Voice) (v : Voice) :
  engine_ready E rate h voices ->
  (voice_index < Z.of_nat (List.length voices))%Z ->
  py_index voices voice_index = Some v ->
  eng_setProperty E (facade_setup rate h) h "voice" (VStr (voice_id v)) = Ok tt ->
  construct E rate voice_index = Ok (constructed_with_voice rate h voices v).
Proof.
  intros (H1 & H2 & H3 & H4) Hvi Hv Hset.
  apply Z.ltb_lt in Hvi.
  unfold constructed_with_voice, facade_setup, event in *. cbn [firstn] in *.
  unfold construct, TextToSpeech, init_facade_engine, empty_world.
  unfold_py. unfold_sys. cbn.
  rewrite H1. cbn. rewrite H2. cbn. rewrite H3. cbn. rewrite H4. cbn.
  rewrite log_voices_eq. cbn. rewrite Hvi, Hv. cbn. rewrite Hset. cbn.
  rewrite <- !app_assoc. reflexivity.
Qed.

(** X5.  A [voice_index] from 0 up to the number of voices selects the
    voice at that position: its id is the one set on the engine, and
    construction succeeds if the engine takes it. *)
Theorem voice_index_selects_voice
    (rate voice_index : Z) (h : Handle) (voices : list Voice) (v : Voice) :
  engine_ready E rate h voices ->
  (0 <= voice_index)%Z ->
  nth_error voices (Z.to_nat voice_index) = Some v ->
  eng_setProperty E (facade_setup rate h) h "voice" (VStr (voice_id v)) = Ok tt ->
  construct E rate voice_index = Ok (constructed_with_voice rate h voices v).
Proof.
  intros Hr Hpos Hv Hset. apply construct_with_voice; auto.
  - assert (Z.to_nat voice_index < List.length voices)
      by (apply nth_error_Some; congruence). lia.
  - unfold py_index. apply Z.leb_le in Hpos. rewrite Hpos. exact Hv.
Qed.

(** X6.  A negative [voice_index] is not rejected: down to minus the number
    of voices it counts from the end of the voice list, as Python
    indexing does, so that -1 selects the last voice. *)
Theorem negative_voice_index_counts_from_end
    (rate voice_index : Z) (h : Handle) (voices : list Voice) (v : Voice) :
  engine_ready E rate h voices ->
  (- Z.of_nat (List.length voices) <= voice_index < 0)%Z ->
  nth_error voices (Z.to_nat (Z.of_nat (List.length voices) + voice_index)) = Some v ->
  eng_setProperty E (facade_setup rate h) h "voice" (VStr (voice_id v)) = Ok tt ->
  construct E rate voice_index = Ok (constructed_with_voice rate h voices v).
Proof.
  intros Hr [Hlo Hneg] Hv Hset. apply construct_with_voice; auto; [lia|].
  unfold py_index.
  destruct (0 <=? voice_index)%Z eqn:H0; [apply Z.leb_le in H0; lia|].
  apply Z.leb_le in Hlo. rewrite Hlo. exact Hv.
Qed.

(** X7.  A [voice_index] below minus the number of voices passes the test
    [voice_index < len(voices)] and then fails the lookup: construction
    logs the failure and raises [IndexError], after the engine was
    acquired and set up, and no object is returned. *)
Theorem voice_index_below_range_fails
    (rate voice_index : Z) (h : Handle) (voices : list Voice) :
  engine_ready E rate h voices ->
  (voice_index < - Z.of_nat (List.length voices))%Z ->
  TextToSpeech E rate voice_index empty_world =
  (Raise IndexError,
   {| trace := facade_setup rate h;
      log := [(INFO, InitializingEngine); (INFO, SetSpeechRate rate);
              (INFO, AvailableVoices (List.length voices))] ++
             voice_lines 0 voices ++ [(ERROR, FailedToInitialize)] |}).
Proof.
  intros (H1 & H2 & H3 & H4) Hvi.
  assert (Hlt : (voice_index <? Z.of_nat (List.length voices))%Z = true)
    by (apply Z.ltb_lt; lia).
  assert (Hidx : py_index voices voice_index = None).
  { unfold py_index.
    destruct (0 <=? voice_index)%Z eqn:H0; [apply Z.leb_le in H0; lia|].
    destruct (- Z.of_nat (List.length voices) <=? voice_index)%Z eqn:H5;
      [apply Z.leb_le in H5; lia | reflexivity]. }
  unfold facade_setup, event in *. cbn [firstn] in *.
  unfold TextToSpeech, init_facade_engine, empty_world.
  unfold_py. unfold_sys. cbn.
  rewrite H1. cbn. rewrite H2. cbn. rewrite H3. cbn. rewrite H4. cbn.
  rewrite log_voices_eq. cbn. rewrite Hlt, Hidx. cbn.
  rewrite <- ?app_assoc. reflexivity.
Qed.

Lemma construct_inversion (rate voice_index : Z) (s : Sys) :
  construct E rate voice_index = Ok s ->
  exists h voices,
    engine s = h /\
    engine_ready E rate h voices /\
    ((Z.of_nat (List.length voices) <= voice_index)%Z /\
     trace (world s) = facade_setup rate h
     \/
     exists v,
       py_index voices voice_index = Some v /\
       trace (world s) =
         facade_setup rate h ++
         [event Caller (SetProperty h "voice" (VStr (voice_id v))) true]).
Proof.
  unfold construct, TextToSpeech, init_facade_engine, empty_world,
    engine_ready, facade_setup, event.
  cbn [firstn].
  construct_cases E; intros H; inversion H; subst; clear H; cbn.
  all: repeat first
         [ progress (cbn [is_ok] in * )
         | match goal with
           | H1 : ?x = _, H2 : context [?x] |- _ =>
               lazymatch type of H2 with
               | x = _ => fail
               | _ => rewrite H1 in H2
               end
           end ].
  - eexists _, _. split; [reflexivity|].
    split; [repeat split; eassumption|].
    right. eexists. split; [eassumption | reflexivity].
  - eexists _, _. split; [reflexivity|].
    split; [repeat split; eassumption|].
    left. split; [apply Z.ltb_ge; assumption | reflexivity].
Qed.

(** X8.  Construction succeeds only with an engine in hand: [self.engine]
    is the handle [pyttsx3.init()] returned, that engine has taken the
    rate and the volume and listed its voices, and either
    [voice_index] was at or beyond the number of voices and no voice
    was set, or the voice it denotes was set. *)
Theorem construct_needs_engine (rate voice_index : Z) (s : Sys) :
  construct E rate voice_index = Ok s ->
  exists voices,
    engine_ready E rate (engine s) voices /\
    ((Z.of_nat (List.length voices) <= voice_index)%Z /\
     trace (world s) = facade_setup rate (engine s)
     \/
     exists v,
       py_index voices voice_index = Some v /\
       trace (world s) =
         facade_setup rate (engine s) ++
         [event Caller (SetProperty (engine s) "voice" (VStr (voice_id v))) true]).
Proof.
  intros H. destruct (construct_inversion rate voice_index s H)
    as (h & voices & <- & Hr & Hcases).
  exists voices. split; assumption.
Qed.

(** X9.  When the engine cannot be had, [pyttsx3.init()] raising or
    returning [None], construction logs the failure and raises, the
    engine's exception or [RuntimeError], having made that one call;
    no object is returned and no thread is started. *)
Theorem construct_without_engine_fails (rate voice_index : Z) :
  (forall h, eng_init E [] <> Ok (Some h)) ->
  TextToSpeech E rate voice_index empty_world =
  (Raise match eng_init E [] with Raise e => e | Ok _ => RuntimeError end,
   {| trace := [event Caller Init (is_ok (eng_init E []))];
      log := [(INFO, InitializingEngine); (ERROR, FailedToInitialize)] |}).
Proof.
  intros H. unfold TextToSpeech, init_facade_engine, empty_world.
  unfold_py. unfold_sys. cbn.
  destruct (eng_init E []) as [[h|]|e]; cbn; [|reflexivity..].
  exfalso. apply (H h). reflexivity.
Qed.
End ConstructionProperties.

(** * Invariants of every run *)

(** The texts [speak] and [speak_blocking] have put on the queue, in
    the order of the calls, as their log lines record them. *)
Definition accepted (l : list LogRecord) : list pystr :=
  flat_map (fun r => match snd r with
                     | QueueingText text | QueueingTextWillWait text => [text]
                     | _ => []
                     end) l.

(** The texts on the queue, in order, the sentinels left out. *)
Definition texts (q : list (option pystr)) : list pystr :=
  flat_map (fun item => match item with Some text => [text] | None => [] end) q.

(** The lines of the outer handler of the worker's loop. *)
Definition unexpected (l : list LogRecord) : list LogRecord :=
  filter (fun r => match snd r with UnexpectedWorkerError => true | _ => false end) l.

(** How often the worker has called [pyttsx3.init()]. *)
Definition inits (hist : History) : nat :=
  List.length (filter is_Init (worker_calls hist)).

Definition is_EndLoop (c : Call) : bool :=
  match c with EndLoop _ => true | _ => false end.

(** The engines the worker has released, in order. *)
Definition releases (hist : History) : list Call :=
  filter is_EndLoop (worker_calls hist).

Arguments accepted : simpl never.
Arguments unexpected : simpl never.
Arguments inits : simpl never.
Arguments releases : simpl never.

Lemma accepted_app (l1 l2 : list LogRecord) :
  accepted (l1 ++ l2) = accepted l1 ++ accepted l2.
Proof. apply flat_map_app. Qed.

Lemma accepted_cons (r : LogRecord) (l : list LogRecord) :
  accepted (r :: l) =
  match snd r with
  | QueueingText text | QueueingTextWillWait text => [text]
  | _ => []
  end ++ accepted l.
Proof. reflexivity. Qed.

Lemma accepted_nil : accepted [] = [].
Proof. reflexivity. Qed.

Lemma unexpected_app (l1 l2 : list LogRecord) :
  unexpected (l1 ++ l2) = unexpected l1 ++ unexpected l2.
Proof. apply filter_app. Qed.

Lemma unexpected_cons (r : LogRecord) (l : list LogRecord) :
  unexpected (r :: l) =
  (if match snd r with UnexpectedWorkerError => true | _ => false end
   then [r] else []) ++ unexpected l.
Proof. unfold unexpected. cbn. destruct (snd r); reflexivity. Qed.

Lemma unexpected_nil : unexpected [] = [].
Proof. reflexivity. Qed.

Lemma inits_app (h1 h2 : History) : inits (h1 ++ h2) = inits h1 + inits h2.
Proof. unfold inits. rewrite worker_calls_app, filter_app, length_app. reflexivity. Qed.

Lemma inits_cons (e : Event) (h : History) :
  inits (e :: h) =
  (match who e, call e with Worker, Init => 1 | _, _ => 0 end) + inits h.
Proof. destruct e as [[] [] ?]; reflexivity. Qed.

Lemma inits_nil : inits [] = 0.
Proof. reflexivity. Qed.

Lemma releases_app (h1 h2 : History) :
  releases (h1 ++ h2) = releases h1 ++ releases h2.
Proof. unfold releases. rewrite worker_calls_app, filter_app. reflexivity. Qed.

Lemma releases_cons (e : Event) (h : History) :
  releases (e :: h) =
  match who e, call e with Worker, EndLoop x => [EndLoop x] | _, _ => [] end ++
  releases h.
Proof. destruct e as [[] [] ?]; reflexivity. Qed.

Lemma releases_nil : releases [] = [].
Proof. reflexivity. Qed.

Lemma texts_app (q1 q2 : list (option pystr)) :
  texts (q1 ++ q2) = texts q1 ++ texts q2.
Proof. apply flat_map_app. Qed.

Ltac observe_more :=
  repeat rewrite ?accepted_app, ?unexpected_app, ?inits_app, ?releases_app,
    ?texts_app, ?accepted_cons, ?unexpected_cons, ?inits_cons, ?releases_cons,
    ?accepted_nil, ?unexpected_nil, ?inits_nil, ?releases_nil;
  observe.

Lemma accepted_voice_lines (voices : list Voice) (i : nat) :
  accepted (voice_lines i voices) = [].
Proof.
  revert i. induction voices as [|v rest IH]; intros i; [reflexivity|].
  cbn [voice_lines]. rewrite accepted_cons, IH. reflexivity.
Qed.

Lemma unexpected_voice_lines (voices : list Voice) (i : nat) :
  unexpected (voice_lines i voices) = [].
Proof.
  revert i. induction voices as [|v rest IH]; intros i; [reflexivity|].
  cbn [voice_lines]. rewrite unexpected_cons, IH. reflexivity.
Qed.

Section Invariants.
Variable E : Engine.

(** More on what [init_engine()] does: it asks for an engine exactly
    once, releases at most the engine it held, and logs nothing of
    the queue or of the outer handler. *)
Lemma reinit_more (tr : History) (we : option Handle) :
  let '(_, evs, _, lines) := reinit E tr we in
  inits evs = 1 /\
  releases evs = match we with Some h => [EndLoop h] | None => [] end /\
  accepted lines = [] /\
  unexpected lines = [].
Proof.
  unfold reinit, bare, init_engine. unfold_py.
  destruct we; break_engine_all E;
    repeat rewrite <- app_assoc; cbn [app];
    rewrite ?skipn_app_exact; repeat split; reflexivity.
Qed.

(** After [step_cases], splits the facts of [reinit_more]. *)
Ltac use_reinit_more :=
  repeat match goal with
    | Hm : inits _ = 1 /\ _ |- _ => destruct Hm as (? & ? & ? & ?)
    end.

Lemma construct_quiet (rate voice_index : Z) (s : Sys) :
  construct E rate voice_index = Ok s ->
  accepted (log (world s)) = [] /\ unexpected (log (world s)) = [].
Proof.
  unfold construct, TextToSpeech, init_facade_engine, empty_world.
  construct_cases E; intros H; inversion H; subst; clear H; cbn.
  all: observe_more;
    rewrite ?accepted_voice_lines, ?unexpected_voice_lines; split; reflexivity.
Qed.

Ltac by_schedule sched s :=
  revert s; induction sched as [|t sched IH]; intros s;
  [ rewrite ?run_nil; cbv zeta | rewrite run_cons ].

(** Nothing is lost from the queue or added to it on the way: the
    texts the worker has announced followed by the texts still queued
    are the texts accepted, and every queued text is speakable. *)
Definition fifo_inv (s : Sys) : Prop :=
  attempted (log (world s)) ++ texts (speech_queue s) = accepted (log (world s)) /\
  Forall (fun text => speakable text = true) (texts (speech_queue s)).

Lemma tick_fifo_inv (t : Tick) (s : Sys) : fifo_inv s -> fifo_inv (tick E t s).
Proof.
  unfold fifo_inv. destruct_sys s. intros [Hf Hs].
  pose proof (reinit_more tr we) as Hm.
  destruct t as [|op| |].
  - destruct t0 as [ | | | | | [|] | | | ].
    3: destruct q as [|[text|] q]; cbn in Hf, Hs; rewrite ?app_nil_r in Hf;
         [ | inversion Hs as [|? ? Htext Hrest]; subst | ].
    all: step_cases E; use_reinit_more; observe_more.
    all: repeat match goal with
           | H : attempted _ = [] |- _ => rewrite H
           | H : accepted _ = [] |- _ => rewrite H
           end; rewrite ?app_nil_r.
    all: try (split; assumption).
    split; [|assumption]. rewrite <- Hf, <- app_assoc. reflexivity.
  - destruct c; [destruct op|..]; step_cases E; observe_more.
    all: try (split; assumption).
    + split.
      * rewrite <- Hf, <- app_assoc. reflexivity.
      * apply Forall_app. split; [assumption|]. repeat constructor.
        unfold speakable.
        repeat match goal with H : truthy _ = true |- _ => rewrite H end.
        reflexivity.
    + split.
      * rewrite <- Hf, <- app_assoc. reflexivity.
      * apply Forall_app. split; [assumption|]. repeat constructor. assumption.
  - destruct c; step_cases E; observe_more; split; assumption.
  - destruct c; step_cases E; observe_more; split; assumption.
Qed.

Lemma run_invariant (P : Sys -> Prop) :
  (forall t s, P s -> P (tick E t s)) ->
  forall sched s, P s -> P (run E sched s).
Proof.
  intros Hstep sched. induction sched as [|t sched IH]; intros s Hs.
  - rewrite run_nil. exact Hs.
  - rewrite run_cons. apply IH, Hstep, Hs.
Qed.

Lemma run_fifo_inv (rate voice_index : Z) (s0 : Sys) (sched : list Tick) :
  construct E rate voice_index = Ok s0 -> fifo_inv (run E sched s0).
Proof.
  intros Hc. apply (run_invariant fifo_inv tick_fifo_inv).
  destruct (construct_fresh E rate voice_index s0 Hc)
    as (_ & _ & _ & _ & Hq & _ & _ & _ & Hat).
  destruct (construct_quiet rate voice_index s0 Hc) as (Hacc & _).
  unfold fifo_inv. rewrite Hq, Hat, Hacc. split; [reflexivity | constructor].
Qed.

(** X10.  In every run from construction, whatever the interleaving and
    whatever the engine does, the texts the worker has set out to
    speak followed by the texts still on the queue are exactly the
    texts [speak] and [speak_blocking] accepted, in the order of the
    calls: no text is lost, repeated or overtaken, and no blank text
    is ever queued. *)
Theorem queue_conserves_texts
    (rate voice_index : Z) (s0 : Sys) (sched : list Tick) :
  construct E rate voice_index = Ok s0 ->
  let s := run E sched s0 in
  attempted (log (world s)) ++ texts (speech_queue s) = accepted (log (world s)) /\
  Forall (fun text => speakable text = true) (texts (speech_queue s)).
Proof.
  intros Hc. exact (run_fifo_inv rate voice_index s0 sched Hc).
Qed.

(** The worker thread is alive or has ended in order, and the outer
    handler of its loop has logged nothing. *)
Definition no_crash (s : Sys) : Prop :=
  speech_thread s <> Crashed /\ unexpected (log (world s)) = [].

Lemma tick_no_crash (t : Tick) (s : Sys) : no_crash s -> no_crash (tick E t s).
Proof.
  unfold no_crash. destruct_sys s. intros [Ht Hu].
  pose proof (reinit_more tr we) as Hm.
  destruct t as [|op| |].
  - destruct t0 as [ | | | | | [|] | | | ]; try contradiction.
    all: step_cases E; use_reinit_more; observe_more.
    all: repeat match goal with
           | H : unexpected _ = [] |- _ => rewrite H
           end; rewrite ?app_nil_r.
    all: split; [discriminate | reflexivity].
  - destruct c; [destruct op|..]; step_cases E; observe_more;
      rewrite ?Hu; split; auto.
  - destruct c; step_cases E; observe_more; rewrite ?Hu; split; auto.
  - destruct c; step_cases E; observe_more; rewrite ?Hu; split; auto.
Qed.

(** X11.  In every run from construction, whatever the engine raises and
    when, the worker thread never dies of an exception and the outer
    handler of its loop never runs: every exception of the engine is
    caught closer to the call.  Nor does any method called on the
    object let an exception reach its caller. *)
Theorem worker_never_crashes
    (rate voice_index : Z) (s0 : Sys) (sched : list Tick) :
  construct E rate voice_index = Ok s0 ->
  let s := run E sched s0 in
  speech_thread s <> Crashed /\
  unexpected (log (world s)) = [] /\
  escaped s = 0.
Proof.
  intros Hc. cbv zeta.
  destruct (construct_fresh E rate voice_index s0 Hc)
    as (_ & _ & Hx & Ht & _).
  destruct (construct_quiet rate voice_index s0 Hc) as (_ & Hu).
  assert (H : no_crash (run E sched s0)).
  { apply (run_invariant no_crash tick_no_crash).
    split; [rewrite Ht; discriminate | exact Hu]. }
  destruct H as [H1 H2]. rewrite run_escaped. auto.
Qed.

(** Whether the worker's start-up has run, and whether an utterance
    is under way. *)
Definition started (t : WorkerState) : nat :=
  match t with Starting => 0 | _ => 1 end.

Definition in_progress (t : WorkerState) : nat :=
  match t with
  | Speaking _ | Playing _ | Reinitializing _ => 1
  | _ => 0
  end.

Definition reinit_inv (s : Sys) : Prop :=
  speech_thread s <> Crashed /\
  inits (trace (world s)) + in_progress (speech_thread s) =
  started (speech_thread s) + List.length (attempted (log (world s))).

Lemma caller_tick_inits (t : Tick) (s : Sys) :
  t <> Work -> inits (trace (world (tick E t s))) = inits (trace (world s)).
Proof.
  intros Ht. destruct (caller_tick E t s Ht) as (_ & _ & _ & Hw & _).
  unfold inits. rewrite Hw. reflexivity.
Qed.

Lemma tick_reinit_inv (t : Tick) (s : Sys) : reinit_inv s -> reinit_inv (tick E t s).
Proof.
  intros [Hc Hi]. destruct t as [|op| |].
  - revert Hc Hi. unfold reinit_inv. destruct_sys s. intros Hc Hi.
    pose proof (reinit_more tr we) as Hm.
    destruct t as [ | | | | | [|] | | | ]; try contradiction.
    all: step_cases E; use_reinit_more; observe_more.
    all: repeat match goal with
           | H : attempted _ = [] |- _ => rewrite H
           | H : inits _ = 1 |- _ => rewrite H
           end; cbn in *.
    all: split; [discriminate | lia].
  - unfold reinit_inv.
    destruct (caller_tick E (Invoke op) s) as (-> & _ & _ & _ & -> & _);
      [discriminate|].
    rewrite caller_tick_inits by discriminate. auto.
  - unfold reinit_inv.
    destruct (caller_tick E Proceed s) as (-> & _ & _ & _ & -> & _);
      [discriminate|].
    rewrite caller_tick_inits by discriminate. auto.
  - unfold reinit_inv.
    destruct (caller_tick E JoinTimeout s) as (-> & _ & _ & _ & -> & _);
      [discriminate|].
    rewrite caller_tick_inits by discriminate. auto.
Qed.

(** X12.  In every run from construction the worker asks for an engine
    once when it starts and once more at the end of every utterance
    it set out on, successful or not: the number of its calls of
    [pyttsx3.init()] is one, once started, plus the number of
    utterances announced, less the one still under way. *)
Theorem one_engine_per_utterance
    (rate voice_index : Z) (s0 : Sys) (sched : list Tick) :
  construct E rate voice_index = Ok s0 ->
  let s := run E sched s0 in
  inits (trace (world s)) + in_progress (speech_thread s) =
  started (speech_thread s) + List.length (attempted (log (world s))).
Proof.
  intros Hc.
  apply (run_invariant reinit_inv tick_reinit_inv).
  destruct (construct_fresh E rate voice_index s0 Hc)
    as (_ & _ & _ & Ht & _ & _ & _ & Hw & Hat).
  unfold reinit_inv, inits. rewrite Ht, Hw, Hat. split; [discriminate | reflexivity].
Qed.
End Invariants.

(** ** What is said, and when nothing more is said *)

(** [subseq l1 l2]: [l1] is [l2] with some elements left out. *)
Inductive subseq {A : Type} : list A -> list A -> Prop :=
| subseq_nil : subseq [] []
| subseq_skip (x : A) (l1 l2 : list A) : subseq l1 l2 -> subseq l1 (x :: l2)
| subseq_keep (x : A) (l1 l2 : list A) : subseq l1 l2 -> subseq (x :: l1) (x :: l2).

Lemma subseq_refl {A : Type} (l : list A) : subseq l l.
Proof. induction l; constructor; assumption. Qed.

Lemma subseq_app {A : Type} (l1 l2 k1 k2 : list A) :
  subseq l1 l2 -> subseq k1 k2 -> subseq (l1 ++ k1) (l2 ++ k2).
Proof.
  intros H Hk. induction H; cbn.
  - exact Hk.
  - apply subseq_skip. assumption.
  - apply subseq_keep. assumption.
Qed.

Lemma subseq_app_r {A : Type} (l1 l2 k : list A) :
  subseq l1 l2 -> subseq l1 (l2 ++ k).
Proof.
  intros H. rewrite <- (app_nil_r l1). apply subseq_app; [exact H|].
  induction k; constructor; assumption.
Qed.

Definition past_loop (t : WorkerState) : bool :=
  match t with
  | Stopping | Stopped | Crashed => true
  | _ => false
  end.

(** The worker will not take anything more off the queue and is not
    in the middle of an utterance: the flag is cleared or the loop is
    left, and the thread is neither polling nor about to call [say]. *)
Definition quiet (s : Sys) : Prop :=
  (is_running s = false \/ past_loop (speech_thread s) = true) /\
  pending (speech_thread s) = 0.

Section Said.
Variable E : Engine.

(** Up to the utterance under way, what was said is among what was
    announced, in order. *)
Definition said_inv (s : Sys) : Prop :=
  match speech_thread s with
  | Speaking text =>
      exists before,
        attempted (log (world s)) = before ++ [text] /\
        subseq (said (trace (world s))) before
  | _ => subseq (said (trace (world s))) (attempted (log (world s)))
  end.

Lemma tick_said_inv (t : Tick) (s : Sys) : said_inv s -> said_inv (tick E t s).
Proof.
  intros Hi. destruct t as [|op| |].
  - revert Hi. unfold said_inv. destruct_sys s. intros Hi.
    destruct t as [ | | | | | [|] | | | ].
    all: step_cases E; observe.
    all: repeat match goal with
           | H : attempted _ = [] |- _ => rewrite H
           | H : said _ = [] |- _ => rewrite H
           end; rewrite ?app_nil_r.
    all: try assumption.
    all: try (destruct Hi as (before & -> & Hsub)).
    all: try (apply subseq_app_r; assumption).
    all: try (eexists; split; [reflexivity | assumption]).
    all: try (apply subseq_app; [assumption | apply subseq_refl]).
    all: try (apply subseq_app_r, subseq_app_r, subseq_app;
              [assumption | apply subseq_refl]).
  - unfold said_inv.
    destruct (caller_tick E (Invoke op) s) as (-> & _ & _ & _ & -> & _);
      [discriminate|].
    rewrite caller_tick_said by discriminate. exact Hi.
  - unfold said_inv.
    destruct (caller_tick E Proceed s) as (-> & _ & _ & _ & -> & _);
      [discriminate|].
    rewrite caller_tick_said by discriminate. exact Hi.
  - unfold said_inv.
    destruct (caller_tick E JoinTimeout s) as (-> & _ & _ & _ & -> & _);
      [discriminate|].
    rewrite caller_tick_said by discriminate. exact Hi.
Qed.

(** X13.  In every run from construction the texts passed to [say] are
    texts that [speak] or [speak_blocking] accepted, each passed at
    most once and in the order of the calls: the worker never speaks
    a text it was not given, never repeats one and never reorders. *)
Theorem said_only_what_was_accepted
    (rate voice_index : Z) (s0 : Sys) (sched : list Tick) :
  construct E rate voice_index = Ok s0 ->
  let s := run E sched s0 in
  subseq (said (trace (world s))) (attempted (log (world s))) /\
  subseq (said (trace (world s))) (accepted (log (world s))).
Proof.
  intros Hc s.
  destruct (construct_fresh E rate voice_index s0 Hc)
    as (_ & _ & _ & Ht & _ & _ & _ & Hw & Hat).
  assert (Hi : said_inv s).
  { apply (run_invariant E said_inv tick_said_inv).
    unfold said_inv, said. rewrite Ht, Hw, Hat. constructor. }
  assert (Hsub : subseq (said (trace (world s))) (attempted (log (world s)))).
  { unfold said_inv in Hi. destruct (speech_thread s); try exact Hi.
    destruct Hi as (before & -> & Hsub). apply subseq_app_r, Hsub. }
  split; [exact Hsub|].
  destruct (run_fifo_inv E rate voice_index s0 sched Hc) as [Hf _].
  fold s in Hf. rewrite <- Hf.
  apply subseq_app_r, Hsub.
Qed.
End Said.

Section WindingDown.
Variable E : Engine.

Lemma tick_quiet (t : Tick) (s : Sys) :
  quiet s ->
  quiet (tick E t s) /\
  said (trace (world (tick E t s))) = said (trace (world s)) /\
  attempted (log (world (tick E t s))) = attempted (log (world s)) /\
  exists more, speech_queue (tick E t s) = speech_queue s ++ more.
Proof.
  intros Hq. destruct t as [|op| |].
  - revert Hq. unfold quiet. destruct_sys s. intros [Hw Hp].
    destruct t as [ | | | | | [|] | | | ]; try discriminate Hp;
      (destruct Hw as [Hw|Hw]; [subst | try discriminate Hw]).
    all: step_cases E; observe.
    all: repeat match goal with
           | H : attempted _ = [] |- _ => rewrite H
           | H : said _ = [] |- _ => rewrite H
           end; rewrite ?app_nil_r.
    all: split; [split; [first [left; reflexivity | right; reflexivity] | reflexivity]|].
    all: split; [reflexivity|]; split; [reflexivity|].
    all: exists []; rewrite app_nil_r; reflexivity.
  - destruct (caller_tick E (Invoke op) s) as (Ht & _ & _ & _ & Hl & Hm);
      [discriminate|].
    rewrite caller_tick_said by discriminate.
    split; [|auto]. unfold quiet in *. rewrite Ht.
    destruct Hq as [[Hr|Hp] H0]; split; auto. left. apply tick_flag, Hr.
  - destruct (caller_tick E Proceed s) as (Ht & _ & _ & _ & Hl & Hm);
      [discriminate|].
    rewrite caller_tick_said by discriminate.
    split; [|auto]. unfold quiet in *. rewrite Ht.
    destruct Hq as [[Hr|Hp] H0]; split; auto. left. apply tick_flag, Hr.
  - destruct (caller_tick E JoinTimeout s) as (Ht & _ & _ & _ & Hl & Hm);
      [discriminate|].
    rewrite caller_tick_said by discriminate.
    split; [|auto]. unfold quiet in *. rewrite Ht.
    destruct Hq as [[Hr|Hp] H0]; split; auto. left. apply tick_flag, Hr.
Qed.

Lemma run_quiet (sched : list Tick) (s : Sys) :
  quiet s ->
  said (trace (world (run E sched s))) = said (trace (world s)) /\
  attempted (log (world (run E sched s))) = attempted (log (world s)) /\
  exists more, speech_queue (run E sched s) = speech_queue s ++ more.
Proof.
  revert s. induction sched as [|t sched IH]; intros s Hq.
  - rewrite run_nil. repeat split. exists []. rewrite app_nil_r. reflexivity.
  - rewrite run_cons.
    destruct (tick_quiet t s Hq) as (Hq' & Hs & Ha & (m1 & Hm1)).
    destruct (IH _ Hq') as (Hs' & Ha' & (m2 & Hm2)).
    split; [congruence|]. split; [congruence|].
    exists (m1 ++ m2). rewrite Hm2, Hm1, app_assoc. reflexivity.
Qed.

(** X14.  Clearing [is_running] is enough to silence the worker.  If the
    flag is cleared while the worker is neither polling nor about to
    call [say], then whatever is on the queue stays there: in every
    schedule that follows no text is taken off the queue, announced or
    passed to [say]. *)
Theorem cleared_flag_drops_queue (s : Sys) (sched : list Tick) :
  is_running s = false ->
  pending (speech_thread s) = 0 ->
  let s' := run E sched s in
  said (trace (world s')) = said (trace (world s)) /\
  attempted (log (world s')) = attempted (log (world s)) /\
  exists more, speech_queue s' = speech_queue s ++ more.
Proof.
  intros Hr Hp. apply run_quiet. split; [left; exact Hr | exact Hp].
Qed.

(** X15.  The sentinel ends the worker's reading of the queue.  When the
    polling worker finds the sentinel at the head, it leaves the loop,
    and the items behind the sentinel are never taken off the queue,
    announced or spoken, whatever follows. *)
Theorem sentinel_cuts_queue
    (s : Sys) (rest : list (option pystr)) (sched : list Tick) :
  speech_thread s = Polling ->
  speech_queue s = None :: rest ->
  let s1 := tick E Work s in
  let s' := run E sched s1 in
  speech_thread s1 = Stopping /\
  said (trace (world s')) = said (trace (world s)) /\
  attempted (log (world s')) = attempted (log (world s)) /\
  exists more, speech_queue s' = rest ++ more.
Proof.
  intros Ht Hq. cbv zeta.
  change (tick E Work s) with (worker_step E s).
  rewrite (step_Polling E s Ht), Hq.
  match goal with |- context [run E sched ?x] => set (s1 := x) end.
  assert (Hquiet : quiet s1) by (split; [right; reflexivity | reflexivity]).
  destruct (run_quiet sched s1 Hquiet) as (Hs & Ha & Hm).
  split; [reflexivity|]. rewrite Hs, Ha. subst s1. cbn.
  rewrite attempted_app. cbn. rewrite app_nil_r. auto.
Qed.

(** X16.  Leaving the loop, the worker releases the engine it holds, once,
    whether or not [endLoop] raises, and the thread ends; nothing else
    is called in the worker's name from then on. *)
Theorem shutdown_releases_engine (s : Sys) (sched : list Tick) :
  speech_thread s = Stopping ->
  1 <= works_in sched ->
  let s' := run E sched s in
  speech_thread s' = Stopped /\
  worker_calls (trace (world s')) =
    worker_calls (trace (world s)) ++
    match worker_engine s with Some h => [EndLoop h] | None => [] end.
Proof.
  revert s. induction sched as [|t sched IH]; intros s Ht Hw.
  - cbn in Hw. lia.
  - cbv zeta. rewrite run_cons. destruct t as [|op| |].
    + change (tick E Work s) with (worker_step E s).
      assert (H : speech_thread (worker_step E s) = Stopped /\
                  worker_calls (trace (world (worker_step E s))) =
                    worker_calls (trace (world s)) ++
                    match worker_engine s with Some h => [EndLoop h] | None => [] end).
      { rewrite (step_Stopping E s Ht). destruct (worker_engine s); cbn.
        - rewrite worker_calls_app. split; reflexivity.
        - rewrite app_nil_r. split; reflexivity. }
      destruct H as [Hst Hc].
      assert (Hd : is_alive (worker_step E s) = false)
        by (unfold is_alive; rewrite Hst; reflexivity).
      destruct (run_dead E sched _ Hd) as (_ & Hc' & Ht').
      split; [rewrite Ht'; exact Hst | rewrite Hc'; exact Hc].
    + destruct (caller_tick E (Invoke op) s) as (Ht' & He & _ & Hc & _);
        [discriminate|].
      rewrite <- Hc, <- He. apply IH; [rewrite Ht'; exact Ht | exact Hw].
    + destruct (caller_tick E Proceed s) as (Ht' & He & _ & Hc & _);
        [discriminate|].
      rewrite <- Hc, <- He. apply IH; [rewrite Ht'; exact Ht | exact Hw].
    + destruct (caller_tick E JoinTimeout s) as (Ht' & He & _ & Hc & _);
        [discriminate|].
      rewrite <- Hc, <- He. apply IH; [rewrite Ht'; exact Ht | exact Hw].
Qed.

Lemma run_dead_engine (sched : list Tick) (s : Sys) :
  is_alive s = false ->
  worker_engine (run E sched s) = worker_engine s.
Proof.
  revert s. induction sched as [|t sched IH]; intros s Hd.
  - reflexivity.
  - rewrite run_cons.
    destruct (run_dead E [t] s Hd) as (Hd' & _).
    rewrite IH by exact Hd'.
    destruct t as [|op| |].
    + change (tick E Work s) with (worker_step E s). rewrite step_dead by exact Hd.
      reflexivity.
    + destruct (caller_tick E (Invoke op) s) as (_ & He & _); [discriminate|exact He].
    + destruct (caller_tick E Proceed s) as (_ & He & _); [discriminate|exact He].
    + destruct (caller_tick E JoinTimeout s) as (_ & He & _); [discriminate|exact He].
Qed.

(** X17.  When start-up fails the thread function returns before its
    cleanup: the worker never calls [endLoop], then or later, and if
    [pyttsx3.init()] had returned an engine before the failure, that
    engine stays in [worker_engine], unreleased. *)
Theorem failed_start_releases_nothing (s : Sys) (sched : list Tick) :
  speech_thread s = Starting ->
  worker_engine s = None ->
  fst (init_engine E s) = Ok false ->
  let s1 := tick E Work s in
  let s' := run E sched s1 in
  releases (trace (world s')) = releases (trace (world s)) /\
  worker_engine s' = worker_engine s1 /\
  worker_engine s1 =
    match eng_init E (trace (world s)) with Ok e => e | Raise _ => None end.
Proof.
  intros Ht Hwe Hfail. cbv zeta.
  change (tick E Work s) with (worker_step E s).
  assert (H : speech_thread (worker_step E s) = Stopped /\
              releases (trace (world (worker_step E s))) = releases (trace (world s)) /\
              worker_engine (worker_step E s) =
                match eng_init E (trace (world s)) with Ok e => e | Raise _ => None end).
  { rewrite (step_Starting E s Ht). rewrite init_engine_eq in Hfail.
    pose proof (reinit_more E (trace (world s)) (worker_engine s)) as Hm.
    pose proof (reinit_calls E (trace (world s)) (worker_engine s)) as Hc.
    destruct (reinit E (trace (world s)) (worker_engine s)) as [[[ok evs] we'] lines].
    destruct Hm as (_ & Hrel & _).
    destruct Hc as (released & ? & ? & _ & Hr & Hwe').
    cbn in Hfail. injection Hfail as ->. cbn.
    rewrite releases_app, Hrel, Hwe, app_nil_r.
    rewrite Hwe in Hr. destruct released; [|discriminate].
    rewrite app_nil_r in Hwe'. auto. }
  destruct H as (Hst & Hrel & Hwe1).
  assert (Hd : is_alive (worker_step E s) = false)
    by (unfold is_alive; rewrite Hst; reflexivity).
  destruct (run_dead E sched _ Hd) as (_ & Hc & _).
  split; [|split].
  - rewrite <- Hrel. unfold releases. rewrite Hc. reflexivity.
  - apply run_dead_engine, Hd.
  - exact Hwe1.
Qed.

(** X18.  An idle worker is silent.  With the flag set and nothing queued,
    however long the worker runs, it makes no call to the engine and
    writes no log line; it just goes round the loop. *)
Theorem idle_worker_is_silent (s : Sys) (n : nat) :
  speech_thread s = Idle \/ speech_thread s = Polling ->
  is_running s = true -> speech_queue s = [] ->
  let s' := run E (works n) s in
  world s' = world s /\ speech_queue s' = [] /\
  worker_engine s' = worker_engine s /\
  in_loop (speech_thread s') = true.
Proof.
  intros Ht Hr Hq.
  destruct (idle_spin E n s Ht Hr Hq) as (Ht' & Hw & Hq' & He).
  repeat split; try assumption. destruct Ht' as [-> | ->]; reflexivity.
Qed.
End WindingDown.


(** * test_pyttsx3_diagnostic.py *)

(** The script talks to one engine from the main thread and reports
    on standard output.  Its lines are kept as data. *)
Inductive Line :=
| Rule
| Title
| PythonVersion
| Pyttsx3Location
| Test1Header
| EngineInitialized
| FailedToInitializeEngine
| Test2Header
| FoundVoices (n : nat)
| VoiceLine (i : nat) (name id : string)
| FailedToGetVoices
| Test3Header
| PropertiesSet
| FailedToSetProperties
| Test4Header
| SayingHello
| WaitingForSpeech
| SpeechCompleted
| SpeechFailed
| Test5Header
| SentenceLine (i : nat) (text : pystr)
| SentenceFailed
| Test6Header
| RateSetTo150
| FasterSpeechCompleted
| Test6Failed
| DiagnosticComplete
| IfNoAudio
| CheckVolume
| CheckSpeakers
| InstallSapi5Voices
| InstallEspeak.

Record Diag := { d_world : World; stdout : list Line }.

#[export] Instance HasWorld_Diag : HasWorld Diag :=
  {| the_world := d_world;
     with_world := fun w d => {| d_world := w; stdout := stdout d |} |}.

Definition print (l : Line) : M Diag unit :=
  fun d => (Ok tt, {| d_world := d_world d; stdout := stdout d ++ [l] |}).

(** How the script ends: it runs off its end, it calls
    [sys.exit(code)], or an exception nobody caught ends it. *)
Inductive Ending :=
| Finished
| Exited (code : Z)
| Uncaught (e : exn).

Definition hello_sentence : pystr := lit "Hello, this is a text to speech test.".

Definition sentences : list pystr :=
  [lit "The first sentence."; lit "The second sentence."; lit "The third sentence."].

Definition faster_sentence : pystr := lit "This should be faster.".

Section Diagnostic.
Variable E : Engine.

Definition banner : M Diag unit :=
  print Rule ;; print Title ;; print Rule ;;
  print PythonVersion ;; print Pyttsx3Location.

(** The body of the [try] of Test 1. *)
Definition test1 : M Diag (option Handle) :=
  print Test1Header ;;
  engine <- pyttsx3_init E Caller ;;
  print EngineInitialized ;;
  ret engine.

Fixpoint print_voices (i : nat) (voices : list Voice) : M Diag unit :=
  match voices with
  | [] => ret tt
  | v :: rest =>
      print (VoiceLine i (voice_name v) (voice_id v)) ;;
      print_voices (S i) rest
  end.

Definition test2 (engine : option Handle) : M Diag unit :=
  print Test2Header ;;
  try_except
    (voices <- on_engine engine (getVoices E Caller) ;;
     print (FoundVoices (List.length voices)) ;;
     print_voices 0 voices)
    (fun _ => print FailedToGetVoices).

Definition test3 (engine : option Handle) : M Diag unit :=
  print Test3Header ;;
  try_except
    (on_engine engine (setProperty E Caller "rate" (VInt 100)) ;;
     on_engine engine (setProperty E Caller "volume" (VFloat 1)) ;;
     print PropertiesSet)
    (fun _ => print FailedToSetProperties).

Definition test4 (engine : option Handle) : M Diag unit :=
  print Test4Header ;;
  print SayingHello ;;
  try_except
    (on_engine engine (say E Caller hello_sentence) ;;
     print WaitingForSpeech ;;
     on_engine engine (runAndWait E Caller) ;;
     print SpeechCompleted)
    (fun _ => print SpeechFailed).

(** The [for] loop of Test 5, the [try] inside it. *)
Fixpoint speak_sentences (i : nat) (texts : list pystr) (engine : option Handle)
  : M Diag unit :=
  match texts with
  | [] => ret tt
  | text :: rest =>
      try_except
        (print (SentenceLine i text) ;;
         on_engine engine (say E Caller text) ;;
         on_engine engine (runAndWait E Caller))
        (fun _ => print SentenceFailed) ;;
      speak_sentences (S i) rest engine
  end.

Definition test5 (engine : option Handle) : M Diag unit :=
  print Test5Header ;;
  speak_sentences 1 sentences engine.

Definition test6 (engine : option Handle) : M Diag unit :=
  print Test6Header ;;
  try_except
    (on_engine engine (setProperty E Caller "rate" (VInt 150)) ;;
     print RateSetTo150 ;;
     on_engine engine (say E Caller faster_sentence) ;;
     on_engine engine (runAndWait E Caller) ;;
     print FasterSpeechCompleted)
    (fun _ => print Test6Failed).

Definition closing : M Diag unit :=
  print Rule ;; print DiagnosticComplete ;; print Rule ;;
  print IfNoAudio ;; print CheckVolume ;; print CheckSpeakers ;;
  print InstallSapi5Voices ;; print InstallEspeak.

Definition tests (engine : option Handle) : M Diag unit :=
  test2 engine ;; test3 engine ;; test4 engine ;;
  test5 engine ;; test6 engine ;; closing.

(** The script.  Only Test 1 can end it early: its handler prints and
    calls [sys.exit(1)]. *)
Definition diagnostic (d : Diag) : Ending * Diag :=
  match (banner ;; test1) d with
  | (Raise _, d1) =>
      (Exited 1, snd (print FailedToInitializeEngine d1))
  | (Ok engine, d1) =>
      match tests engine d1 with
      | (Ok _, d2) => (Finished, d2)
      | (Raise e, d2) => (Uncaught e, d2)
      end
  end.

Definition fresh_run : Diag := {| d_world := empty_world; stdout := [] |}.
End Diagnostic.

(** The texts passed to [say], by whichever thread, in order. *)
Definition spoken (hist : History) : list pystr :=
  flat_map (fun e => match call e with Say _ text => [text] | _ => [] end) hist.

(** Whether the call set the rate to 150 and succeeded. *)
Definition is_set150 (e : Event) : bool :=
  match call e with
  | SetProperty _ name (VInt 150) => String.eqb name "rate" && succeeded e
  | _ => false
  end.

Definition rate_raised (hist : History) : bool := existsb is_set150 hist.

(** [d] after further calls and further lines. *)
Definition extend (d : Diag) (evs : History) (out : list Line) : Diag :=
  {| d_world := {| trace := trace (d_world d) ++ evs; log := log (d_world d) |};
     stdout := stdout d ++ out |}.

Lemma extend_extend (d : Diag) (e1 e2 : History) (o1 o2 : list Line) :
  extend (extend d e1 o1) e2 o2 = extend d (e1 ++ e2) (o1 ++ o2).
Proof. unfold extend. cbn. rewrite !app_assoc. reflexivity. Qed.

Lemma spoken_app (h1 h2 : History) : spoken (h1 ++ h2) = spoken h1 ++ spoken h2.
Proof. apply flat_map_app. Qed.

Lemma rate_raised_app (h1 h2 : History) :
  rate_raised (h1 ++ h2) = rate_raised h1 || rate_raised h2.
Proof. apply existsb_app. Qed.

Ltac unfold_diag :=
  cbv [extend print d_world stdout the_world with_world HasWorld_Diag
       record_event record_log trace log].

Ltac diag_cases E :=
  unfold_py;
  repeat (unfold_diag; cbn;
          first [ break_engine E | break_var ]);
  unfold_diag; cbn.

(** What a block of the script does: it never raises, and it adds
    calls and lines. *)
Definition block_adds (c : M Diag unit) (d : Diag) (evs : History) : Prop :=
  exists out, c d = (Ok tt, extend d evs out).

Section DiagnosticProperties.
Variable E : Engine.

(** Closes a block lemma once the block has been run: the calls and
    lines added are read off the state reached. *)
Ltac block_done :=
  unfold extend; cbn; rewrite <- ?app_assoc; cbn;
  first [ eexists; split; [eexists; reflexivity|]
        | exists []; split; [eexists; rewrite app_nil_r; reflexivity|] ];
  cbn; auto.

Lemma print_voices_adds (voices : list Voice) (i : nat) (d : Diag) :
  block_adds (print_voices i voices) d [].
Proof.
  revert i d. induction voices as [|v rest IH]; intros i d.
  - exists []. destruct d as [[tr l] o]. unfold extend. cbn.
    rewrite !app_nil_r. reflexivity.
  - destruct (IH (S i) (snd (print (VoiceLine i (voice_name v) (voice_id v)) d)))
      as (out & Hout).
    exists (VoiceLine i (voice_name v) (voice_id v) :: out).
    cbn [print_voices]. unfold bind at 1. cbn [print snd] in *.
    rewrite Hout. destruct d as [[tr l] o]. unfold extend. cbn.
    rewrite <- app_assoc. reflexivity.
Qed.

Lemma test2_adds (engine : option Handle) (d : Diag) :
  exists evs, block_adds (test2 E engine) d evs /\
              spoken evs = [] /\ rate_raised evs = false.
Proof.
  destruct d as [[tr l] o]. unfold block_adds, test2.
  destruct engine as [h|]; unfold_py; unfold_diag; cbn.
  - destruct (eng_getVoices E tr h) as [voices|?] eqn:Hv; cbn.
    + destruct (print_voices_adds voices 0
                  {| d_world := {| trace := tr ++ [event Caller (GetProperty h "voices") true];
                                   log := l |};
                     stdout := (o ++ [Test2Header]) ++ [FoundVoices (List.length voices)] |})
        as (out & Hout).
      unfold event in Hout. rewrite Hout. block_done.
    + block_done.
  - block_done.
Qed.

Lemma test3_adds (engine : option Handle) (d : Diag) :
  exists evs, block_adds (test3 E engine) d evs /\
              spoken evs = [] /\ rate_raised evs = false.
Proof.
  destruct d as [[tr l] o]. unfold block_adds, test3.
  destruct engine as [h|]; diag_cases E.
  all: block_done.
Qed.

Lemma test4_adds (engine : option Handle) (d : Diag) :
  exists evs, block_adds (test4 E engine) d evs /\
              spoken evs = match engine with Some _ => [hello_sentence] | None => [] end /\
              rate_raised evs = false.
Proof.
  destruct d as [[tr l] o]. unfold block_adds, test4.
  destruct engine as [h|]; diag_cases E.
  all: block_done.
Qed.

(** The loop of Test 5 goes through all its sentences: a failure on
    one does not keep it from the next. *)
Lemma speak_sentences_adds
    (texts : list pystr) (i : nat) (engine : option Handle) (d : Diag) :
  exists evs, block_adds (speak_sentences E i texts engine) d evs /\
              spoken evs = match engine with Some _ => texts | None => [] end /\
              rate_raised evs = false.
Proof.
  revert i d. induction texts as [|text rest IH]; intros i d.
  - exists []. split; [|destruct engine; auto].
    exists []. destruct d as [[tr l] o]. unfold extend, ret. cbn.
    rewrite !app_nil_r. reflexivity.
  - cbn [speak_sentences].
    assert (H : exists evs, block_adds
                  (try_except
                     (print (SentenceLine i text) ;;
                      on_engine engine (say E Caller text) ;;
                      on_engine engine (runAndWait E Caller))
                     (fun _ => print SentenceFailed)) d evs /\
                spoken evs = match engine with Some _ => [text] | None => [] end /\
                rate_raised evs = false).
    { destruct d as [[tr l] o]. unfold block_adds.
      destruct engine as [h|]; diag_cases E.
      all: block_done. }
    destruct H as (e1 & (o1 & H1) & S1 & R1).
    destruct (IH (S i) (extend d e1 o1)) as (e2 & (o2 & H2) & S2 & R2).
    exists (e1 ++ e2). split; [|split].
    + exists (o1 ++ o2). unfold bind at 1. rewrite H1, H2. rewrite extend_extend.
      reflexivity.
    + rewrite spoken_app, S1, S2. destruct engine; reflexivity.
    + rewrite rate_raised_app, R1, R2. reflexivity.
Qed.

Lemma test5_adds (engine : option Handle) (d : Diag) :
  exists evs, block_adds (test5 E engine) d evs /\
              spoken evs = match engine with Some _ => sentences | None => [] end /\
              rate_raised evs = false.
Proof.
  destruct (speak_sentences_adds sentences 1 engine (snd (print Test5Header d)))
    as (evs & (out & H) & Hs & Hr).
  exists evs. split; [|auto]. exists (Test5Header :: out).
  unfold test5, bind. cbn [print snd] in *. rewrite H.
  destruct d as [[tr l] o]. unfold extend. cbn. rewrite <- app_assoc. reflexivity.
Qed.

Lemma test6_adds (engine : option Handle) (d : Diag) :
  exists evs, block_adds (test6 E engine) d evs /\
              spoken evs = (if rate_raised evs then [faster_sentence] else []).
Proof.
  destruct d as [[tr l] o]. unfold block_adds, test6.
  destruct engine as [h|]; diag_cases E.
  all: block_done.
Qed.

Definition closing_lines : list Line :=
  [Rule; DiagnosticComplete; Rule; IfNoAudio; CheckVolume; CheckSpeakers;
   InstallSapi5Voices; InstallEspeak].

Lemma closing_adds (d : Diag) : closing d = (Ok tt, extend d [] closing_lines).
Proof.
  destruct d as [[tr l] o]. unfold closing, closing_lines.
  diag_cases E. unfold extend. cbn.
  rewrite <- ?app_assoc, ?app_nil_r. reflexivity.
Qed.

(** Tests 2 to 6 and the closing lines: never an exception, and what
    is passed to [say] is the sentence of Test 4, the sentences of
    Test 5, and the sentence of Test 6 if the rate could be raised. *)
Lemma tests_add (engine : option Handle) (d : Diag) :
  exists evs out,
    tests E engine d = (Ok tt, extend d evs (out ++ closing_lines)) /\
    spoken evs =
      match engine with Some _ => hello_sentence :: sentences | None => [] end ++
      (if rate_raised evs then [faster_sentence] else []).
Proof.
  destruct (test2_adds engine d) as (e2 & (o2 & H2) & S2 & R2).
  destruct (test3_adds engine (extend d e2 o2)) as (e3 & (o3 & H3) & S3 & R3).
  rewrite extend_extend in H3.
  destruct (test4_adds engine (extend d (e2 ++ e3) (o2 ++ o3)))
    as (e4 & (o4 & H4) & S4 & R4).
  rewrite extend_extend in H4.
  destruct (test5_adds engine (extend d ((e2 ++ e3) ++ e4) ((o2 ++ o3) ++ o4)))
    as (e5 & (o5 & H5) & S5 & R5).
  rewrite extend_extend in H5.
  destruct (test6_adds engine
              (extend d (((e2 ++ e3) ++ e4) ++ e5) (((o2 ++ o3) ++ o4) ++ o5)))
    as (e6 & (o6 & H6) & S6).
  rewrite extend_extend in H6.
  exists (((((e2 ++ e3) ++ e4) ++ e5) ++ e6)), (((((o2 ++ o3) ++ o4) ++ o5) ++ o6)).
  split.
  - unfold tests, bind. rewrite H2, H3, H4, H5, H6, closing_adds.
    rewrite extend_extend, app_nil_r. reflexivity.
  - rewrite !spoken_app, !rate_raised_app, S2, S3, S4, S5, S6, R2, R3, R4, R5.
    cbn [orb app]. destruct engine; reflexivity.
Qed.

(** X19.  When [pyttsx3.init()] raises, the script reports it and exits
    with status 1: the engine saw that one call, and none of the
    tests ran. *)
Theorem diagnostic_exits_without_engine (e : exn) :
  eng_init E [] = Raise e ->
  diagnostic E fresh_run =
  (Exited 1,
   {| d_world := {| trace := [event Caller Init false]; log := [] |};
      stdout := [Rule; Title; Rule; PythonVersion; Pyttsx3Location;
                 Test1Header; FailedToInitializeEngine] |}).
Proof.
  intros H. unfold diagnostic, banner, test1, fresh_run, empty_world.
  unfold_py. unfold_diag. cbn. rewrite H. reflexivity.
Qed.

(** X20.  When [pyttsx3.init()] returns, the script always runs to its
    end, whatever fails afterwards: every test catches its own
    exceptions and Test 5 goes on to the next sentence after a
    failure.  With an engine, [say] gets the sentence of Test 4 and
    the three sentences of Test 5 in order, and after them the
    sentence of Test 6 exactly when the rate could be set to 150;
    without one ([None]), nothing is said. *)
Theorem diagnostic_runs_to_completion (engine : option Handle) :
  eng_init E [] = Ok engine ->
  let d := snd (diagnostic E fresh_run) in
  fst (diagnostic E fresh_run) = Finished /\
  (exists out, stdout d = out ++ closing_lines) /\
  spoken (trace (d_world d)) =
    match engine with Some _ => hello_sentence :: sentences | None => [] end ++
    (if rate_raised (trace (d_world d)) then [faster_sentence] else []).
Proof.
  intros H. cbv zeta.
  assert (H1 : (banner ;; test1 E) fresh_run =
               (Ok engine,
                extend fresh_run [event Caller Init true]
                  [Rule; Title; Rule; PythonVersion; Pyttsx3Location;
                   Test1Header; EngineInitialized])).
  { unfold banner, test1, fresh_run, empty_world, extend.
    unfold_py. unfold_diag. cbn. rewrite H. reflexivity. }
  unfold diagnostic. rewrite H1.
  destruct (tests_add engine
              (extend fresh_run [event Caller Init true]
                 [Rule; Title; Rule; PythonVersion; Pyttsx3Location;
                  Test1Header; EngineInitialized]))
    as (evs & out & Ht & Hs).
  rewrite Ht. cbn [fst snd]. split; [reflexivity|]. split.
  - eexists. unfold extend. cbn [stdout]. rewrite app_assoc. reflexivity.
  - unfold extend. cbn [d_world trace fresh_run empty_world app].
    change (event Caller Init true :: evs) with ([event Caller Init true] ++ evs).
    rewrite spoken_app, rate_raised_app. cbn [spoken rate_raised flat_map existsb
      is_set150 call event app orb]. exact Hs.
Qed.
End DiagnosticProperties.

(** * Concrete runs for the further properties *)

(** A run in which both threads are busy: texts are queued while the
    worker speaks, a property is set, [stop()] is called and times
    out, and a text is queued after it. *)
Definition busy : list Tick :=
  [Invoke (OSpeak (lit "one")); Work; Work; Invoke (OSpeakBlocking (lit "two"));
   Work; Work; Invoke (OSpeak (lit "  ")); Work;
   Invoke (OSetProperty "rate" (VInt 150)); Work; Work; Work;
   Invoke (OSpeak (lit "three")); Work; Work; Work;
   Invoke OStop; Work; Proceed; JoinTimeout; Invoke (OSpeak (lit "late"));
   Work; Work; Work].

(** An engine that takes no property once a second engine has been
    asked for: the facade can be constructed, the worker cannot
    configure the engine it gets. *)
Definition second_engine_broken : Engine :=
  {| eng_init := eng_init good_engine;
     eng_setProperty := fun hist _ _ _ =>
       if count_calls is_Init hist <? 2 then Ok tt else Raise EngineError;
     eng_getVoices := eng_getVoices good_engine;
     eng_getProperty := eng_getProperty good_engine;
     eng_say := eng_say good_engine;
     eng_runAndWait := eng_runAndWait good_engine;
     eng_endLoop := eng_endLoop good_engine |}.

Lemma good_engine_ready : engine_ready good_engine 100 0 two_voices.
Proof. repeat split. Defined.

Lemma good_engine_constructs :
  construct good_engine 100 0 = Ok (constructed good_engine 100 0).
Proof. vm_compute. reflexivity. Defined.

Lemma flaky_engine_constructs :
  construct (failing_say_engine 3) 100 0 = Ok (constructed (failing_say_engine 3) 100 0).
Proof. vm_compute. reflexivity. Defined.

Definition zira : Voice := {| voice_id := "voice/zira"; voice_name := "Zira" |}.

Lemma voice_index_selects_voice_witness :
  engine_ready good_engine 100 0 two_voices /\
  (0 <= 1)%Z /\
  nth_error two_voices (Z.to_nat 1) = Some zira /\
  eng_setProperty good_engine (facade_setup 100 0) 0 "voice" (VStr (voice_id zira)) = Ok tt /\
  construct good_engine 100 1 = Ok (constructed_with_voice 100 0 two_voices zira).
Proof.
  assert (H1 : (0 <= 1)%Z) by (vm_compute; discriminate).
  assert (H2 : nth_error two_voices (Z.to_nat 1) = Some zira) by reflexivity.
  assert (H3 : eng_setProperty good_engine (facade_setup 100 0) 0 "voice"
                 (VStr (voice_id zira)) = Ok tt) by reflexivity.
  split; [exact good_engine_ready|]. split; [exact H1|]. split; [exact H2|].
  split; [exact H3|].
  exact (voice_index_selects_voice good_engine 100 1 0 two_voices zira
           good_engine_ready H1 H2 H3).
Defined.

Lemma negative_voice_index_counts_from_end_witness :
  engine_ready good_engine 100 0 two_voices /\
  (- Z.of_nat (List.length two_voices) <= -1 < 0)%Z /\
  nth_error two_voices (Z.to_nat (Z.of_nat (List.length two_voices) + -1)) = Some zira /\
  eng_setProperty good_engine (facade_setup 100 0) 0 "voice" (VStr (voice_id zira)) = Ok tt /\
  construct good_engine 100 (-1) = Ok (constructed_with_voice 100 0 two_voices zira).
Proof.
  assert (H1 : (- Z.of_nat (List.length two_voices) <= -1 < 0)%Z)
    by (vm_compute; split; [discriminate | reflexivity]).
  assert (H2 : nth_error two_voices
                 (Z.to_nat (Z.of_nat (List.length two_voices) + -1)) = Some zira)
    by reflexivity.
  assert (H3 : eng_setProperty good_engine (facade_setup 100 0) 0 "voice"
                 (VStr (voice_id zira)) = Ok tt) by reflexivity.
  split; [exact good_engine_ready|]. split; [exact H1|]. split; [exact H2|].
  split; [exact H3|].
  exact (negative_voice_index_counts_from_end good_engine 100 (-1) 0 two_voices zira
           good_engine_ready H1 H2 H3).
Defined.

Lemma voice_index_below_range_fails_witness :
  engine_ready good_engine 100 0 two_voices /\
  (-3 < - Z.of_nat (List.length two_voices))%Z /\
  fst (TextToSpeech good_engine 100 (-3) empty_world) = Raise IndexError.
Proof.
  assert (H1 : (-3 < - Z.of_nat (List.length two_voices))%Z) by reflexivity.
  split; [exact good_engine_ready|]. split; [exact H1|].
  rewrite (voice_index_below_range_fails good_engine 100 (-3) 0 two_voices
             good_engine_ready H1).
  reflexivity.
Defined.

Lemma construct_needs_engine_witness :
  construct good_engine 100 0 = Ok (constructed good_engine 100 0) /\
  exists voices,
    engine_ready good_engine 100 (engine (constructed good_engine 100 0)) voices.
Proof.
  split; [exact good_engine_constructs|].
  destruct (construct_needs_engine good_engine 100 0 _ good_engine_constructs)
    as (voices & Hr & _).
  exists voices. exact Hr.
Defined.

Lemma construct_without_engine_fails_witness :
  (forall h, eng_init dead_engine [] <> Ok (Some h)) /\
  fst (TextToSpeech dead_engine 100 0 empty_world) = Raise EngineError.
Proof.
  assert (H : forall h, eng_init dead_engine [] <> Ok (Some h))
    by (intros h; discriminate).
  split; [exact H|].
  rewrite (construct_without_engine_fails dead_engine 100 0 H). reflexivity.
Defined.

Lemma queue_conserves_texts_witness :
  let s0 := constructed (failing_say_engine 3) 100 0 in
  let s := run (failing_say_engine 3) busy s0 in
  construct (failing_say_engine 3) 100 0 = Ok s0 /\
  attempted (log (world s)) ++ texts (speech_queue s) = accepted (log (world s)).
Proof.
  cbv zeta. split; [exact flaky_engine_constructs|].
  exact (proj1 (queue_conserves_texts (failing_say_engine 3) 100 0 _ busy
                  flaky_engine_constructs)).
Defined.

Lemma worker_never_crashes_witness :
  let s0 := constructed (failing_say_engine 3) 100 0 in
  let s := run (failing_say_engine 3) busy s0 in
  construct (failing_say_engine 3) 100 0 = Ok s0 /\
  speech_thread s <> Crashed.
Proof.
  cbv zeta. split; [exact flaky_engine_constructs|].
  exact (proj1 (worker_never_crashes (failing_say_engine 3) 100 0 _ busy
                  flaky_engine_constructs)).
Defined.

Lemma one_engine_per_utterance_witness :
  let s0 := constructed (failing_say_engine 3) 100 0 in
  let s := run (failing_say_engine 3) busy s0 in
  construct (failing_say_engine 3) 100 0 = Ok s0 /\
  inits (trace (world s)) + in_progress (speech_thread s) =
  started (speech_thread s) + List.length (attempted (log (world s))).
Proof.
  cbv zeta. split; [exact flaky_engine_constructs|].
  exact (one_engine_per_utterance (failing_say_engine 3) 100 0 _ busy
           flaky_engine_constructs).
Defined.

Lemma said_only_what_was_accepted_witness :
  let s0 := constructed (failing_say_engine 3) 100 0 in
  let s := run (failing_say_engine 3) busy s0 in
  construct (failing_say_engine 3) 100 0 = Ok s0 /\
  subseq (said (trace (world s))) (accepted (log (world s))).
Proof.
  cbv zeta. split; [exact flaky_engine_constructs|].
  exact (proj2 (said_only_what_was_accepted (failing_say_engine 3) 100 0 _ busy
                  flaky_engine_constructs)).
Defined.

(** Two texts queued, the worker at the head of its loop, and the
    flag just cleared by [stop()]. *)
Definition flag_cleared_while_idle : Sys :=
  run good_engine
    [Invoke (OSpeak (lit "one")); Invoke (OSpeak (lit "two")); Work; Invoke OStop]
    (constructed good_engine 100 0).

Lemma cleared_flag_drops_queue_witness :
  let s := flag_cleared_while_idle in
  is_running s = false /\
  pending (speech_thread s) = 0 /\
  speech_queue s = [Some (lit "one"); Some (lit "two")] /\
  said (trace (world (run good_engine (works 9) s))) = said (trace (world s)).
Proof.
  cbv zeta.
  assert (H1 : is_running flag_cleared_while_idle = false) by (vm_compute; reflexivity).
  assert (H2 : pending (speech_thread flag_cleared_while_idle) = 0)
    by (vm_compute; reflexivity).
  split; [exact H1|]. split; [exact H2|]. split; [vm_compute; reflexivity|].
  exact (proj1 (cleared_flag_drops_queue good_engine flag_cleared_while_idle
                  (works 9) H1 H2)).
Defined.

(** The worker polling, with the sentinel ahead of a text. *)
Definition sentinel_ahead : Sys :=
  run good_engine
    [Work; Work; Invoke OStop; Proceed; JoinTimeout; Invoke (OSpeak (lit "late"))]
    (constructed good_engine 100 0).

Lemma sentinel_cuts_queue_witness :
  let s := sentinel_ahead in
  speech_thread s = Polling /\
  speech_queue s = None :: [Some (lit "late")] /\
  speech_thread (tick good_engine Work s) = Stopping /\
  said (trace (world (run good_engine (works 9) (tick good_engine Work s)))) =
    said (trace (world s)).
Proof.
  cbv zeta.
  assert (H1 : speech_thread sentinel_ahead = Polling) by (vm_compute; reflexivity).
  assert (H2 : speech_queue sentinel_ahead = None :: [Some (lit "late")])
    by (vm_compute; reflexivity).
  split; [exact H1|]. split; [exact H2|].
  pose proof (sentinel_cuts_queue good_engine sentinel_ahead [Some (lit "late")]
                (works 9) H1 H2) as H.
  cbv zeta in H. destruct H as (Ha & Hb & _).
  split; [exact Ha | exact Hb].
Defined.

(** The worker has seen the cleared flag and left the loop; its
    cleanup is still to run. *)
Definition about_to_clean_up : Sys :=
  run good_engine [Work; Invoke OStop; Work] (constructed good_engine 100 0).

Lemma shutdown_releases_engine_witness :
  let s := about_to_clean_up in
  let sched := [Proceed; Work; Proceed] in
  speech_thread s = Stopping /\
  1 <= works_in sched /\
  worker_engine s = Some 1 /\
  speech_thread (run good_engine sched s) = Stopped /\
  worker_calls (trace (world (run good_engine sched s))) =
    worker_calls (trace (world s)) ++
    match worker_engine s with Some h => [EndLoop h] | None => [] end.
Proof.
  cbv zeta.
  assert (H1 : speech_thread about_to_clean_up = Stopping) by (vm_compute; reflexivity).
  assert (H2 : 1 <= works_in [Proceed; Work; Proceed]) by (vm_compute; lia).
  split; [exact H1|]. split; [exact H2|]. split; [vm_compute; reflexivity|].
  exact (shutdown_releases_engine good_engine about_to_clean_up
           [Proceed; Work; Proceed] H1 H2).
Defined.

Lemma failed_start_releases_nothing_witness :
  let s := constructed second_engine_broken 100 0 in
  let s1 := tick second_engine_broken Work s in
  speech_thread s = Starting /\
  worker_engine s = None /\
  fst (init_engine second_engine_broken s) = Ok false /\
  worker_engine s1 = Some 1 /\
  releases (trace (world (run second_engine_broken (works 3) s1))) =
    releases (trace (world s)) /\
  worker_engine (run second_engine_broken (works 3) s1) = worker_engine s1.
Proof.
  cbv zeta.
  assert (H1 : speech_thread (constructed second_engine_broken 100 0) = Starting)
    by (vm_compute; reflexivity).
  assert (H2 : worker_engine (constructed second_engine_broken 100 0) = None)
    by (vm_compute; reflexivity).
  assert (H3 : fst (init_engine second_engine_broken
                      (constructed second_engine_broken 100 0)) = Ok false)
    by (vm_compute; reflexivity).
  split; [exact H1|]. split; [exact H2|]. split; [exact H3|].
  split; [vm_compute; reflexivity|].
  pose proof (failed_start_releases_nothing second_engine_broken
                (constructed second_engine_broken 100 0) (works 3) H1 H2 H3) as H.
  cbv zeta in H. destruct H as (Ha & Hb & _).
  split; [exact Ha | exact Hb].
Defined.

(** The worker up and idle, nothing queued. *)
Definition idle_and_empty : Sys :=
  run good_engine [Work] (constructed good_engine 100 0).

Lemma idle_worker_is_silent_witness :
  let s := idle_and_empty in
  (speech_thread s = Idle \/ speech_thread s = Polling) /\
  is_running s = true /\ speech_queue s = [] /\
  world (run good_engine (works 100) s) = world s.
Proof.
  cbv zeta.
  assert (H1 : speech_thread idle_and_empty = Idle \/
               speech_thread idle_and_empty = Polling)
    by (left; vm_compute; reflexivity).
  assert (H2 : is_running idle_and_empty = true) by (vm_compute; reflexivity).
  assert (H3 : speech_queue idle_and_empty = []) by (vm_compute; reflexivity).
  split; [exact H1|]. split; [exact H2|]. split; [exact H3|].
  exact (proj1 (idle_worker_is_silent good_engine idle_and_empty 100 H1 H2 H3)).
Defined.

Lemma diagnostic_exits_without_engine_witness :
  eng_init dead_engine [] = Raise EngineError /\
  fst (diagnostic dead_engine fresh_run) = Exited 1.
Proof.
  assert (H : eng_init dead_engine [] = Raise EngineError) by reflexivity.
  split; [exact H|].
  rewrite (diagnostic_exits_without_engine dead_engine EngineError H). reflexivity.
Defined.

Lemma diagnostic_runs_to_completion_witness :
  eng_init good_engine [] = Ok (Some 0) /\
  fst (diagnostic good_engine fresh_run) = Finished /\
  rate_raised (trace (d_world (snd (diagnostic good_engine fresh_run)))) = true.
Proof.
  assert (H : eng_init good_engine [] = Ok (Some 0)) by reflexivity.
  split; [exact H|].
  split; [exact (proj1 (diagnostic_runs_to_completion good_engine (Some 0) H))|].
  vm_compute. reflexivity.
Defined.

(** On an engine that never fails the script says its five sentences
    in order. *)
Example diagnostic_on_good_engine :
  spoken (trace (d_world (snd (diagnostic good_engine fresh_run)))) =
  hello_sentence :: sentences ++ [faster_sentence].
Proof. vm_compute. reflexivity. Qed.
